(** * FSM backend: the authentication and authorisation contract

    A shallow embedding of [src/main.py] (FastAPI handlers [register],
    [login], [me] and the dependency [get_current_user]) and of the
    [AuthUser] schema of [src/schemas.py].

    - Python dictionaries (Mongo documents, JWT claims) are finite maps
      from strings to dynamically typed values.
    - The module global [db] is the world state threaded through every
      handler: [None] when the database is not configured, otherwise the
      collections of the database.
    - Python exceptions are the [Raise] branch of [result]; a handler is a
      computation in the state-and-exception monad [M].
    - The clock ([datetime.now]), the bcrypt salt and the ObjectId chosen by
      the driver are explicit inputs of the functions that consume them.
    - The third-party libraries (python-jose, passlib, email-validator) are
      interfaces ([Class]es); module [Reference] gives one executable
      model of each. *)

From Stdlib Require Import ZArith NArith Ascii String List DecimalString DecimalPos.
From stdpp Require Import base option list gmap strings fin_maps countable pretty.

Local Open Scope Z_scope.
Local Open Scope string_scope.

(** ** Python values *)

(** The scalar values that occur in the documents of the [authuser]
    collection and in decoded JWT payloads. *)
Inductive Value :=
| VNone
| VBool (b : bool)
| VInt (z : Z)
| VStr (s : string)
| VOid (oid : N).

(** Values of a claims dictionary handed to [jwt.encode]: JSON values, or a
    [datetime] (microseconds since the epoch, UTC). *)
Inductive Claim :=
| CJson (v : Value)
| CDatetime (us : Z).

#[global] Instance Value_eq_dec : EqDecision Value.
Proof. solve_decision. Defined.

#[global] Instance Claim_eq_dec : EqDecision Claim.
Proof. solve_decision. Defined.

#[global] Instance Value_countable : Countable Value.
Proof.
  refine (inj_countable'
    (λ v, match v with
          | VNone => inl ()
          | VBool b => inr (inl b)
          | VInt z => inr (inr (inl z))
          | VStr s => inr (inr (inr (inl s)))
          | VOid n => inr (inr (inr (inr n)))
          end)
    (λ x, match x with
          | inl _ => VNone
          | inr (inl b) => VBool b
          | inr (inr (inl z)) => VInt z
          | inr (inr (inr (inl s))) => VStr s
          | inr (inr (inr (inr n))) => VOid n
          end) _).
  by intros [].
Defined.

Abbreviation Doc := (gmap string Value).
Abbreviation Claims := (gmap string Claim).
Abbreviation Collection := (list (gmap string Value)).
Abbreviation Database := (gmap string (list (gmap string Value))).

(** [d.get(k)] and [d.get(k, default)]. *)
Definition doc_get (d : Doc) (k : string) : Value := default VNone (d !! k).
Definition doc_get_default (d : Doc) (k : string) (dflt : Value) : Value :=
  default dflt (d !! k).

(** ** Exceptions and the handler monad *)

(** The exceptions the handlers raise or let through. [JWTError] stands for
    the class and its subclasses ([ExpiredSignatureError],
    [JWTClaimsError]), which [except JWTError] does not tell apart;
    [LibraryError] carries the class name of any other library exception. *)
Inductive exn :=
| HTTPException (status_code : Z) (detail : string)
                (headers : option (gmap string string))
| JWTError
| ValidationError
| KeyError (key : string)
| LibraryError (cls : string).

Inductive result (A : Type) :=
| Ok (a : A)
| Raise (e : exn).
Arguments Ok {A} a.
Arguments Raise {A} e.

(** The module global [db]: [None] when the database is not configured. *)
Abbreviation World := (option (gmap string (list (gmap string Value)))).

Definition M (A : Type) : Type := World → result A * World.

#[global] Instance M_ret : MRet M := λ A a w, (Ok a, w).
#[global] Instance M_bind : MBind M := λ A B f m w,
  match m w with
  | (Ok a, w') => f a w'
  | (Raise e, w') => (Raise e, w')
  end.

Definition raise {A} (e : exn) : M A := λ w, (Raise e, w).
Definition lift {A} (r : result A) : M A := λ w, (r, w).
Definition get_db : M World := λ w, (Ok w, w).

(** [try: body  except JWTError: handler]. *)
Definition except_JWTError {A} (body handler : M A) : M A := λ w,
  match body w with
  | (Raise JWTError, w') => handler w'
  | r => r
  end.

(** ** Python and driver primitives used by the handlers *)

Definition hex_char (n : N) : ascii :=
  match n with
  | 0%N => "0" | 1%N => "1" | 2%N => "2" | 3%N => "3"
  | 4%N => "4" | 5%N => "5" | 6%N => "6" | 7%N => "7"
  | 8%N => "8" | 9%N => "9" | 10%N => "a" | 11%N => "b"
  | 12%N => "c" | 13%N => "d" | 14%N => "e" | _ => "f"
  end%char.

Fixpoint hex_digits (k : nat) (n : N) (acc : string) : string :=
  match k with
  | O => acc
  | S k' => hex_digits k' (n / 16)%N (String (hex_char (n mod 16)%N) acc)
  end.

(** [str(ObjectId)]: the 12 bytes as 24 lower-case hexadecimal digits. *)
Definition oid_hex (oid : N) : string := hex_digits 24 oid "".

(** Python's [str(v)]. *)
Definition py_str (v : Value) : string :=
  match v with
  | VNone => "None"
  | VBool true => "True"
  | VBool false => "False"
  | VInt z => pretty z
  | VStr s => s
  | VOid oid => oid_hex oid
  end.

(** Truthiness of the result of [find_one]: [None] and the empty
    dictionary are falsy. *)
Definition truthy (o : option Doc) : bool :=
  match o with
  | None => false
  | Some d => negb (bool_decide (d = ∅))
  end.

(** Equality match of a Mongo query [{field: v}] on a document: the field
    holds [v]; a query for null also matches a document without the
    field. *)
Definition field_matches (field : string) (v : Value) (d : Doc) : bool :=
  bool_decide (doc_get d field = v).

(** [collection.find_one({field: v})]: the first matching document. *)
Definition find_one (field : string) (v : Value) (c : Collection) : option Doc :=
  List.find (field_matches field v) c.

(** [db[name]]: a collection that was never written is empty. *)
Definition collection (db : Database) (name : string) : Collection :=
  default [] (db !! name).

Definition id_taken (v : Value) (c : Collection) : bool :=
  existsb (λ d, bool_decide (d !! "_id" = Some v)) c.

(** [db[name].insert_one(doc).inserted_id]: the driver adds a fresh
    ObjectId [oid] as ["_id"] when the document has none; the unique index
    on ["_id"] rejects a duplicate. Subscripting a [db] that is [None] is a
    [TypeError]. *)
Definition insert_one (name : string) (doc : Doc) (oid : N) : M Value := λ w,
  match w with
  | None => (Raise (LibraryError "TypeError"), w)
  | Some db =>
      let id := default (VOid oid) (doc !! "_id") in
      let c := collection db name in
      if id_taken id c
      then (Raise (LibraryError "DuplicateKeyError"), w)
      else (Ok id, Some (<[name := (c ++ [<["_id" := id]> doc])%list]> db))
  end.

(** ** Pydantic field validation (lax mode, Python input) *)

Definition validate_str (v : Value) : result string :=
  match v with
  | VStr s => Ok s
  | _ => Raise ValidationError
  end.

Definition validate_opt_str (v : Value) : result (option string) :=
  match v with
  | VNone => Ok None
  | VStr s => Ok (Some s)
  | _ => Raise ValidationError
  end.

Definition ascii_lower (c : ascii) : ascii :=
  let n := N_of_ascii c in
  if ((65 <=? n) && (n <=? 90))%N then ascii_of_N (n + 32) else c.

Fixpoint str_lower (s : string) : string :=
  match s with
  | EmptyString => EmptyString
  | String c s' => String (ascii_lower c) (str_lower s')
  end.

Definition str_in (s : string) (l : list string) : bool :=
  existsb (String.eqb s) l.

(** A [bool] field accepts a bool, the integers 0 and 1, and the usual
    spellings of true and false, compared without regard to case. *)
Definition validate_bool (v : Value) : result bool :=
  match v with
  | VBool b => Ok b
  | VInt 0 => Ok false
  | VInt 1 => Ok true
  | VStr s =>
      if String.eqb s "0" || str_in (str_lower s) ["f"; "n"; "no"; "off"; "false"]
      then Ok false
      else if String.eqb s "1" || str_in (str_lower s) ["t"; "y"; "on"; "yes"; "true"]
      then Ok true
      else Raise ValidationError
  | _ => Raise ValidationError
  end.

(** ** The third-party libraries *)

(** email-validator, as pydantic's [EmailStr] calls it: the normalised
    address of a valid input. Normalising is idempotent. *)
Class EmailValidator := {
  validate_email : string → option string;
  validate_email_idem : ∀ e e',
    validate_email e = Some e' → validate_email e' = Some e'
}.

(** passlib's [CryptContext(schemes=["bcrypt"])]: [hash] draws a salt,
    [verify] takes whatever Python object the caller passes as the hash. *)
Class Passlib := {
  pwd_hash : string → string → result string;
  pwd_verify : string → Value → result bool
}.

(** [timegm(dt.utctimetuple())]: whole seconds of an instant given in
    microseconds. *)
Definition timegm (us : Z) : Z := us `div` 1000000.

(** The names python-jose validates or rewrites besides ["exp"] and
    ["sub"]. *)
Definition jose_reserved : list string :=
  ["iat"; "nbf"; "aud"; "jti"; "at_hash"].

(** An entry that python-jose serialises and accepts back unchanged: a JSON
    scalar under an unreserved name, a string under ["sub"]. The ["exp"]
    entry is not constrained here: [create_access_token] overwrites it. *)
Definition claim_ok (k : string) (c : Claim) : bool :=
  String.eqb k "exp" ||
  match c with
  | CJson (VStr _) => negb (str_in k jose_reserved)
  | CJson (VNone | VBool _ | VInt _) =>
      negb (str_in k jose_reserved) && negb (String.eqb k "sub")
  | CJson (VOid _) | CDatetime _ => false
  end.

Definition codec_safe (c : Claims) : Prop :=
  map_Forall (λ k v, claim_ok k v = true) c.

(** The JSON object a claims dictionary is serialised to. *)
Definition payload_of (c : Claims) : Doc :=
  omap (λ v, match v with CJson j => Some j | CDatetime _ => None end) c.

(** python-jose with HS256: [jwt.encode(claims, key, algorithm)] and
    [jwt.decode(token, key, algorithms)] read at clock [now]. Encoding
    replaces a datetime under ["exp"] by its whole seconds; decoding checks
    the signature and then rejects a payload whose ["exp"] is less than
    the current whole second (no leeway). Every rejection is a
    [JWTError]; the library knows nothing of FastAPI and never raises an
    [HTTPException]. *)
Class Jose := {
  jwt_encode : Claims → string → result string;
  jwt_decode : string → string → Z → result Doc;
  jwt_decode_encode : ∀ (c : Claims) (key : string) (expire : Z),
    codec_safe c →
    ∃ token,
      jwt_encode (<["exp" := CDatetime expire]> c) key = Ok token ∧
      ∀ now, jwt_decode token key now =
        if (timegm expire <? timegm now)%Z then Raise JWTError
        else Ok (<["exp" := VInt (timegm expire)]> (payload_of c));
  jwt_decode_not_http : ∀ token key now status detail headers,
    jwt_decode token key now ≠ Raise (HTTPException status detail headers)
}.

(** ** Request and response models of [main.py] *)

Record Token := {
  access_token : string;
  token_type : string
}.

Record TokenData := {
  td_email : option string
}.

Record UserPublic := {
  id : option string;
  name : string;
  email : string;
  role : string;
  is_active : bool;
  organization : option string
}.

(** [schemas.AuthUser], the schema of the [authuser] collection. *)
Record AuthUser := {
  au_name : string;
  au_email : string;
  au_password_hash : string;
  au_role : string;
  au_is_active : bool;
  au_organization : option string
}.

Record UserCreate := {
  uc_name : string;
  uc_email : string;
  uc_password : string;
  uc_organization : option string
}.

Definition bind_result {A B} (r : result A) (f : A → result B) : result B :=
  match r with
  | Ok a => f a
  | Raise e => Raise e
  end.

Notation "x ←? r ; k" := (bind_result r (λ x, k))
  (at level 20, r at level 100, k at level 200, right associativity,
   format "x  ←?  r ;  '/' k").

Definition opt_value (o : option string) : Value :=
  match o with
  | Some s => VStr s
  | None => VNone
  end.

Definition TokenData_new (email : Value) : result TokenData :=
  e ←? validate_opt_str email;
  Ok {| td_email := e |}.

(** The process environment: [os.getenv("JWT_SECRET")]. *)
Class Environ := {
  JWT_SECRET : option string
}.

Section Handlers.
Context `{Environ} `{EmailValidator} `{Passlib} `{Jose}.

Definition SECRET_KEY : string := default "dev-secret-change-me" JWT_SECRET.
Definition ACCESS_TOKEN_EXPIRE_MINUTES : Z := 60 * 24.

(** [timedelta(minutes=m)] in microseconds. *)
Definition timedelta_minutes (m : Z) : Z := m * 60 * 1000000.

Definition validate_EmailStr (v : Value) : result string :=
  match v with
  | VStr s =>
      match validate_email s with
      | Some e => Ok e
      | None => Raise ValidationError
      end
  | _ => Raise ValidationError
  end.

(** [UserPublic(id=.., name=.., email=.., role=.., is_active=..,
    organization=..)]. *)
Definition UserPublic_new (id name email role is_active organization : Value)
  : result UserPublic :=
  i ←? validate_opt_str id;
  n ←? validate_str name;
  e ←? validate_EmailStr email;
  r ←? validate_str role;
  a ←? validate_bool is_active;
  o ←? validate_opt_str organization;
  Ok {| id := i; name := n; email := e; role := r; is_active := a;
        organization := o |}.

(** [UserCreate] as FastAPI builds it from the JSON body of the request;
    fields the model does not declare are ignored. *)
Definition UserCreate_validate (body : Doc) : result UserCreate :=
  n ←? validate_str (doc_get body "name");
  e ←? validate_EmailStr (doc_get body "email");
  p ←? validate_str (doc_get body "password");
  o ←? validate_opt_str (doc_get body "organization");
  Ok {| uc_name := n; uc_email := e; uc_password := p; uc_organization := o |}.

Definition verify_password (plain_password : string) (hashed_password : Value)
  : result bool :=
  pwd_verify plain_password hashed_password.

Definition get_password_hash (salt password : string) : result string :=
  pwd_hash salt password.

(** [expires_delta or timedelta(minutes=ACCESS_TOKEN_EXPIRE_MINUTES)]:
    [None] and the zero [timedelta] are both falsy. *)
Definition delta_or_default (expires_delta : option Z) : Z :=
  match expires_delta with
  | Some d => if (d =? 0)%Z then timedelta_minutes ACCESS_TOKEN_EXPIRE_MINUTES else d
  | None => timedelta_minutes ACCESS_TOKEN_EXPIRE_MINUTES
  end.

Definition create_access_token (data : Claims) (expires_delta : option Z)
    (now : Z) : result string :=
  let to_encode := data in
  let expire := now + delta_or_default expires_delta in
  let to_encode := <["exp" := CDatetime expire]> to_encode in
  jwt_encode to_encode SECRET_KEY.

Definition get_user_by_email (email : Value) : M (option Doc) := λ w,
  match w with
  | None => (Raise (HTTPException 500 "Database not configured" None), w)
  | Some db => (Ok (find_one "email" email (collection db "authuser")), w)
  end.

Definition credentials_exception : exn :=
  HTTPException 401 "Could not validate credentials"
                (Some {[ "WWW-Authenticate" := "Bearer" ]}).

Definition get_current_user (now : Z) (token : string) : M UserPublic :=
  token_data ← except_JWTError
    (payload ← lift (jwt_decode token SECRET_KEY now);
     let email := doc_get payload "sub" in
     if bool_decide (email = VNone) then raise credentials_exception
     else lift (TokenData_new email))
    (raise credentials_exception);
  user ← get_user_by_email (opt_value (td_email token_data));
  match user with
  | None => raise credentials_exception
  | Some user =>
      lift (UserPublic_new
              (VStr (py_str (doc_get user "_id")))
              (doc_get user "name")
              (doc_get user "email")
              (doc_get_default user "role" (VStr "owner"))
              (doc_get_default user "is_active" (VBool true))
              (doc_get user "organization"))
  end.

Definition register (user : UserCreate) (salt : string) (oid : N)
  : M UserPublic :=
  db ← get_db;
  match db with
  | None => raise (HTTPException 500 "Database not configured" None)
  | Some _ =>
      existing ← get_user_by_email (VStr (uc_email user));
      if truthy existing
      then raise (HTTPException 400 "Email already registered" None)
      else
        password_hash ← lift (get_password_hash salt (uc_password user));
        let doc : Doc :=
          {[ "name" := VStr (uc_name user);
             "email" := VStr (uc_email user);
             "password_hash" := VStr password_hash;
             "role" := VStr "owner";
             "is_active" := VBool true;
             "organization" := opt_value (uc_organization user) ]} in
        new_id ← insert_one "authuser" doc oid;
        lift (UserPublic_new
                (VStr (py_str new_id))
                (VStr (uc_name user))
                (VStr (uc_email user))
                (VStr "owner")
                (VBool true)
                (opt_value (uc_organization user)))
  end.

(** [POST /auth/register] from the request body on. *)
Definition register_request (body : Doc) (salt : string) (oid : N)
  : M UserPublic :=
  user ← lift (UserCreate_validate body);
  register user salt oid.

(** [user["email"]]. *)
Definition doc_index (d : Doc) (k : string) : result Value :=
  match d !! k with
  | Some v => Ok v
  | None => Raise (KeyError k)
  end.

Definition login (now : Z) (username password : string) : M Token :=
  user ← get_user_by_email (VStr username);
  match user with
  | Some u =>
      if negb (truthy user)
      then raise (HTTPException 400 "Incorrect email or password" None)
      else
        ok ← lift (verify_password password
                     (doc_get_default u "password_hash" (VStr "")));
        if negb ok
        then raise (HTTPException 400 "Incorrect email or password" None)
        else
          sub ← lift (doc_index u "email");
          tok ← lift (create_access_token {[ "sub" := CJson sub ]} None now);
          mret {| access_token := tok; token_type := "bearer" |}
  | None => raise (HTTPException 400 "Incorrect email or password" None)
  end.

Definition me (now : Z) (token : string) : M UserPublic :=
  get_current_user now token.

(** A stored document read against [schemas.AuthUser]; [role] and
    [is_active] take their defaults when the document lacks them. *)
Definition AuthUser_validate (d : Doc) : result AuthUser :=
  n ←? validate_str (doc_get d "name");
  e ←? validate_EmailStr (doc_get d "email");
  p ←? validate_str (doc_get d "password_hash");
  r ←? validate_str (doc_get_default d "role" (VStr "owner"));
  a ←? validate_bool (doc_get_default d "is_active" (VBool true));
  o ←? validate_opt_str (doc_get d "organization");
  Ok {| au_name := n; au_email := e; au_password_hash := p; au_role := r;
        au_is_active := a; au_organization := o |}.

(** A document conforms to the schema when it validates and its email is
    stored in the normal form validation returns. *)
Definition conforms (d : Doc) : bool :=
  match AuthUser_validate d with
  | Ok a => bool_decide (doc_get d "email" = VStr (au_email a))
  | Raise _ => false
  end.

Definition store_conforms (db : Database) : Prop :=
  Forall (λ d, conforms d = true) (collection db "authuser").

(** *** Jobs *)

Record JobCreate := {
  jc_title : string;
  jc_customer_name : string;
  jc_customer_phone : string;
  jc_address : string;
  jc_scheduled_at : option string;
  jc_technician : option string
}.

(** [schemas.Job], the schema of the [job] collection. *)
Record Job := {
  job_title : string;
  job_customer_name : string;
  job_customer_phone : string;
  job_address : string;
  job_status : string;
  job_scheduled_at : option string;
  job_technician : option string
}.

(** [JobCreate] as FastAPI builds it from the JSON body of the request. *)
Definition JobCreate_validate (body : Doc) : result JobCreate :=
  t ←? validate_str (doc_get body "title");
  n ←? validate_str (doc_get body "customer_name");
  p ←? validate_str (doc_get body "customer_phone");
  a ←? validate_str (doc_get body "address");
  s ←? validate_opt_str (doc_get body "scheduled_at");
  k ←? validate_opt_str (doc_get body "technician");
  Ok {| jc_title := t; jc_customer_name := n; jc_customer_phone := p;
        jc_address := a; jc_scheduled_at := s; jc_technician := k |}.

(** A stored document read against [schemas.Job]; [status] takes its
    default when the document lacks it. *)
Definition Job_validate (d : Doc) : result Job :=
  t ←? validate_str (doc_get d "title");
  n ←? validate_str (doc_get d "customer_name");
  p ←? validate_str (doc_get d "customer_phone");
  a ←? validate_str (doc_get d "address");
  st ←? validate_str (doc_get_default d "status" (VStr "scheduled"));
  s ←? validate_opt_str (doc_get d "scheduled_at");
  k ←? validate_opt_str (doc_get d "technician");
  Ok {| job_title := t; job_customer_name := n; job_customer_phone := p;
        job_address := a; job_status := st; job_scheduled_at := s;
        job_technician := k |}.

(** [job.model_dump()]. *)
Definition model_dump (job : JobCreate) : Doc :=
  {[ "title" := VStr (jc_title job);
     "customer_name" := VStr (jc_customer_name job);
     "customer_phone" := VStr (jc_customer_phone job);
     "address" := VStr (jc_address job);
     "scheduled_at" := opt_value (jc_scheduled_at job);
     "technician" := opt_value (jc_technician job) ]}.

(** The handler of [POST /jobs], given the identity its dependency
    resolved; the result is the response dictionary. *)
Definition create_job (job : JobCreate) (current_user : UserPublic) (oid : N)
  : M Doc :=
  db ← get_db;
  match db with
  | None => raise (HTTPException 500 "Database not configured" None)
  | Some _ =>
      let data := model_dump job in
      let data :=
        <["organization" := opt_value (organization current_user)]>
          (<["created_by" := VStr (email current_user)]>
             (<["status" := VStr "scheduled"]> data)) in
      job_id ← insert_one "job" data oid;
      mret ({[ "id" := VStr (py_str job_id);
               "message" := VStr "Job created" ]} : Doc)
  end.

(** Truthiness of an [Optional[str]]: [None] and the empty string are
    falsy. *)
Definition str_truthy (o : option string) : bool :=
  match o with
  | Some s => negb (String.eqb s "")
  | None => false
  end.

(** The query of [list_jobs]: by organization when the caller has one,
    otherwise by creator. *)
Definition jobs_query (current_user : UserPublic) : string * Value :=
  if str_truthy (organization current_user)
  then ("organization", opt_value (organization current_user))
  else ("created_by", VStr (email current_user)).

(** [list(collection.find({field: v}).limit(n))]. *)
Definition find_limit (field : string) (v : Value) (n : nat) (c : Collection)
  : Collection :=
  take n (List.filter (field_matches field v) c).

(** [j["id"] = str(j.pop("_id"))] on the caller's copy of a document. *)
Definition pop_id (j : Doc) : result Doc :=
  match j !! "_id" with
  | Some v => Ok (<["id" := VStr (py_str v)]> (delete "_id" j))
  | None => Raise (KeyError "_id")
  end.

(** [for j in jobs: ...]: the first exception ends the loop. *)
Fixpoint for_each (f : Doc → result Doc) (jobs : list Doc) : result (list Doc) :=
  match jobs with
  | [] => Ok []
  | j :: rest =>
      j' ←? f j;
      rest' ←? for_each f rest;
      Ok (j' :: rest')
  end.

(** The handler of [GET /jobs]; the result is the list under ["items"]. *)
Definition list_jobs (current_user : UserPublic) : M (list Doc) :=
  db ← get_db;
  match db with
  | None => raise (HTTPException 500 "Database not configured" None)
  | Some db =>
      let query := jobs_query current_user in
      let jobs := find_limit query.1 query.2 50 (collection db "job") in
      lift (for_each pop_id jobs)
  end.

(** The routes with their dependency [Depends(get_current_user)]. *)
Definition post_jobs (now : Z) (token : string) (job : JobCreate) (oid : N)
  : M Doc :=
  current_user ← get_current_user now token;
  create_job job current_user oid.

Definition get_jobs (now : Z) (token : string) : M (list Doc) :=
  current_user ← get_current_user now token;
  list_jobs current_user.

(** No two records of the store share an email. *)
Definition unique_emails (db : Database) : Prop :=
  NoDup ((λ d, doc_get d "email") <$> collection db "authuser").

(** Every stored job carries the ["_id"] the driver gave it. *)
Definition jobs_have_ids (db : Database) : Prop :=
  Forall (λ j : Doc, is_Some (j !! "_id")) (collection db "job").

(** The validity of a default token, in microseconds. *)
Definition default_lifetime : Z := timedelta_minutes ACCESS_TOKEN_EXPIRE_MINUTES.

End Handlers.

(** ** Reference models of the libraries

    Executable stand-ins used to run the handlers on concrete requests.
    They follow the libraries where the handlers can observe them (which
    inputs are rejected and with which exception, what is normalised, the
    whole-second expiry check); the cryptography itself is replaced by
    injective encodings. *)
Module Reference.

(** *** email-validator: one ["@"], both sides non-empty, the domain is
    lower-cased. *)
Fixpoint split_at (s : string) : option (string * string) :=
  match s with
  | EmptyString => None
  | String c s' =>
      if Ascii.eqb c "@" then Some (EmptyString, s')
      else match split_at s' with
           | Some (l, d) => Some (String c l, d)
           | None => None
           end
  end.

Fixpoint has_at (s : string) : bool :=
  match s with
  | EmptyString => false
  | String c s' => Ascii.eqb c "@" || has_at s'
  end.

Definition ref_validate_email (s : string) : option string :=
  match split_at s with
  | Some (l, d) =>
      if negb (String.eqb l "") && negb (String.eqb d "") && negb (has_at d)
      then Some (l ++ String "@" (str_lower d))
      else None
  | None => None
  end.

Lemma ascii_lower_idem c : ascii_lower (ascii_lower c) = ascii_lower c.
Proof. by destruct c as [[] [] [] [] [] [] [] []]. Qed.

Lemma ascii_lower_at c : Ascii.eqb (ascii_lower c) "@" = Ascii.eqb c "@".
Proof. by destruct c as [[] [] [] [] [] [] [] []]. Qed.

Lemma str_lower_idem s : str_lower (str_lower s) = str_lower s.
Proof. induction s as [|c s IH]; simpl; [done|]. by rewrite ascii_lower_idem, IH. Qed.

Lemma has_at_lower s : has_at (str_lower s) = has_at s.
Proof. induction s as [|c s IH]; simpl; [done|]. by rewrite ascii_lower_at, IH. Qed.

Lemma str_lower_empty s : String.eqb (str_lower s) "" = String.eqb s "".
Proof. by destruct s. Qed.

Lemma split_at_left s l d : split_at s = Some (l, d) → has_at l = false.
Proof.
  revert l. induction s as [|c s IH]; intros l; simpl; [done|].
  destruct (Ascii.eqb c "@") eqn:Hc.
  - by intros [= <- _].
  - destruct (split_at s) as [[l' d']|]; [|done].
    intros [= <- <-]. simpl. rewrite Hc. by apply IH.
Qed.

Lemma split_at_app l d : has_at l = false → split_at (l ++ String "@" d) = Some (l, d).
Proof.
  induction l as [|c l IH]; simpl; [done|].
  intros [Hc Hl]%orb_false_elim. by rewrite Hc, IH.
Qed.

Lemma ref_validate_email_idem e e' :
  ref_validate_email e = Some e' → ref_validate_email e' = Some e'.
Proof.
  unfold ref_validate_email.
  destruct (split_at e) as [[l d]|] eqn:Hs; [|done].
  destruct (negb (String.eqb l "") && negb (String.eqb d "") && negb (has_at d))
    eqn:Hok; [|done].
  intros [= <-].
  rewrite (split_at_app l (str_lower d) (split_at_left _ _ _ Hs)).
  by rewrite str_lower_empty, has_at_lower, Hok, str_lower_idem.
Qed.

Definition ref_email : EmailValidator :=
  {| validate_email := ref_validate_email;
     validate_email_idem := ref_validate_email_idem |}.

(** *** passlib with the bcrypt scheme.

    [verify] first identifies the scheme of the hash by its prefix and
    raises [UnknownHashError] when no configured scheme claims it; an
    identified hash that is too short to hold a salt is a [ValueError];
    a hash of [None] verifies as false; any other non-string is a
    [TypeError]. The digest is a stand-in for bcrypt's. *)
Definition bcrypt_idents : list string := ["$2$"; "$2a$"; "$2x$"; "$2y$"; "$2b$"].

Definition identify (h : string) : bool :=
  existsb (λ i, String.prefix i h) bcrypt_idents.

Definition digest (salt password : string) : string :=
  String.rev (salt ++ password).

Definition ref_pwd_hash (salt password : string) : result string :=
  if Nat.eqb (String.length salt) 22
  then Ok ("$2b$12$" ++ salt ++ digest salt password)
  else Raise (LibraryError "ValueError").

Definition ref_pwd_verify (password : string) (h : Value) : result bool :=
  match h with
  | VNone => Ok false
  | VStr h =>
      if negb (identify h) then Raise (LibraryError "UnknownHashError")
      else if Nat.ltb (String.length h) 29 then Raise (LibraryError "ValueError")
      else
        let salt := substring 7 22 h in
        Ok (String.eqb h ("$2b$12$" ++ salt ++ digest salt password))
  | _ => Raise (LibraryError "TypeError")
  end.

Definition ref_passlib : Passlib :=
  {| pwd_hash := ref_pwd_hash; pwd_verify := ref_pwd_verify |}.

(** *** python-jose.

    The compact serialisation and the HMAC are replaced by an injective
    encoding of the payload together with the key: a token verifies
    under exactly the key it was signed with. *)
Definition ref_sign (payload : Doc) (key : string) : string :=
  NilEmpty.string_of_uint (Pos.to_uint (encode (payload, key))).

Definition ref_verify (token key : string) : option Doc :=
  match NilEmpty.uint_of_string token with
  | Some u =>
      match Pos.of_uint u with
      | Npos p =>
          match decode p with
          | Some (payload, k) => if String.eqb k key then Some payload else None
          | None => None
          end
      | N0 => None
      end
  | None => None
  end.

(** A datetime under one of the time claims becomes its whole seconds. *)
Definition intdate (k : string) (c : Claims) : Claims :=
  match c !! k with
  | Some (CDatetime us) => <[k := CJson (VInt (timegm us))]> c
  | _ => c
  end.

Definition json_ok (v : Claim) : bool :=
  match v with
  | CJson (VOid _) | CDatetime _ => false
  | CJson _ => true
  end.

Definition ref_jwt_encode (c : Claims) (key : string) : result string :=
  let c := intdate "nbf" (intdate "iat" (intdate "exp" c)) in
  if bool_decide (map_Forall (λ _ v, json_ok v = true) c)
  then Ok (ref_sign (payload_of c) key)
  else Raise (LibraryError "TypeError").

(** [int(v)] inside the claim checks: a [ValueError] is turned into a
    [JWTError], a [TypeError] is not caught. *)
Definition claim_int (v : Value) : result Z :=
  match v with
  | VInt z => Ok z
  | VBool b => Ok (if b then 1 else 0)
  | VStr s =>
      match NilZero.int_of_string s with
      | Some i => Ok (Z.of_int i)
      | None => Raise JWTError
      end
  | _ => Raise (LibraryError "TypeError")
  end.

Definition check (b : bool) : result unit :=
  if b then Ok () else Raise JWTError.

Definition is_str_or_absent (o : option Value) : bool :=
  match o with
  | None | Some (VStr _) => true
  | _ => false
  end.

(** The default claim checks of [jwt.decode]: no audience, issuer,
    subject or access token is expected by the caller. *)
Definition validate_claims (p : Doc) (now : Z) : result Doc :=
  _ ←? match p !! "iat" with
       | Some v => (_ ←? claim_int v; Ok ())
       | None => Ok ()
       end;
  _ ←? match p !! "nbf" with
       | Some v => (n ←? claim_int v; check (negb (timegm now <? n)%Z))
       | None => Ok ()
       end;
  _ ←? match p !! "exp" with
       | Some v => (e ←? claim_int v; check (negb (e <? timegm now)%Z))
       | None => Ok ()
       end;
  _ ←? check (bool_decide (p !! "aud" = None));
  _ ←? check (is_str_or_absent (p !! "sub"));
  _ ←? check (is_str_or_absent (p !! "jti"));
  _ ←? check (bool_decide (p !! "at_hash" = None));
  Ok p.

Definition ref_jwt_decode (token key : string) (now : Z) : result Doc :=
  match ref_verify token key with
  | Some p => validate_claims p now
  | None => Raise JWTError
  end.

Lemma ref_verify_sign payload key : ref_verify (ref_sign payload key) key = Some payload.
Proof.
  unfold ref_verify, ref_sign.
  rewrite NilEmpty.usu, Unsigned.of_to, decode_encode.
  by rewrite String.eqb_refl.
Qed.

Lemma codec_safe_lookup (c : Claims) k v :
  codec_safe c → c !! k = Some v → k ≠ "exp" →
  json_ok v = true ∧ str_in k jose_reserved = false ∧
  (k = "sub" → ∃ s, v = CJson (VStr s)).
Proof.
  intros Hsafe Hk Hne. specialize (Hsafe k v Hk). unfold claim_ok in Hsafe.
  apply String.eqb_neq in Hne. rewrite Hne in Hsafe. simpl in Hsafe.
  destruct v as [[]|]; try done; simpl.
  - apply andb_true_iff in Hsafe as [?%negb_true_iff Hs%negb_true_iff].
    repeat split; [done|]. intros ->. by rewrite String.eqb_refl in Hs.
  - apply andb_true_iff in Hsafe as [?%negb_true_iff Hs%negb_true_iff].
    repeat split; [done|]. intros ->. by rewrite String.eqb_refl in Hs.
  - apply andb_true_iff in Hsafe as [?%negb_true_iff Hs%negb_true_iff].
    repeat split; [done|]. intros ->. by rewrite String.eqb_refl in Hs.
  - apply negb_true_iff in Hsafe. repeat split; [done|]. eauto.
Qed.

Lemma codec_safe_reserved (c : Claims) k :
  codec_safe c → str_in k jose_reserved = true → c !! k = None.
Proof.
  intros Hsafe Hin. destruct (c !! k) as [v|] eqn:Hk; [|done].
  assert (k ≠ "exp") as Hne by (intros ->; done).
  destruct (codec_safe_lookup c k v Hsafe Hk Hne) as (_ & Hout & _).
  congruence.
Qed.

Lemma codec_safe_sub (c : Claims) :
  codec_safe c → is_str_or_absent (payload_of c !! "sub") = true.
Proof.
  intros Hsafe. unfold payload_of. rewrite lookup_omap.
  destruct (c !! "sub") as [v|] eqn:Hk; [|done].
  destruct (codec_safe_lookup c "sub" v Hsafe Hk) as (_ & _ & [s ->]); done.
Qed.

Lemma payload_of_reserved (c : Claims) k :
  codec_safe c → str_in k jose_reserved = true → payload_of c !! k = None.
Proof.
  intros Hsafe Hin. unfold payload_of.
  by rewrite lookup_omap, (codec_safe_reserved c k Hsafe Hin).
Qed.

Lemma intdate_absent k (c : Claims) : c !! k = None → intdate k c = c.
Proof. unfold intdate. by intros ->. Qed.

Lemma intdate_datetime k (c : Claims) us :
  intdate k (<[k := CDatetime us]> c) = <[k := CJson (VInt (timegm us))]> c.
Proof. unfold intdate. by rewrite lookup_insert_eq, insert_insert_eq. Qed.

Lemma ref_jwt_encode_exp (c : Claims) key expire :
  codec_safe c →
  ref_jwt_encode (<["exp" := CDatetime expire]> c) key =
  Ok (ref_sign (<["exp" := VInt (timegm expire)]> (payload_of c)) key).
Proof.
  intros Hsafe. unfold ref_jwt_encode. rewrite intdate_datetime.
  rewrite (intdate_absent "iat"); last first.
  { rewrite lookup_insert_ne by done. by apply codec_safe_reserved. }
  rewrite (intdate_absent "nbf"); last first.
  { rewrite lookup_insert_ne by done. by apply codec_safe_reserved. }
  rewrite bool_decide_eq_true_2.
  - unfold payload_of. by erewrite omap_insert_Some.
  - intros k v [[<- <-]|[Hne Hk]]%lookup_insert_Some; [done|].
    by destruct (codec_safe_lookup c k v Hsafe Hk) as (? & _).
Qed.

Lemma ref_jwt_decode_exp (c : Claims) key expire now :
  codec_safe c →
  ref_jwt_decode (ref_sign (<["exp" := VInt (timegm expire)]> (payload_of c)) key)
                 key now =
  if (timegm expire <? timegm now)%Z then Raise JWTError
  else Ok (<["exp" := VInt (timegm expire)]> (payload_of c)).
Proof.
  intros Hsafe. unfold ref_jwt_decode. rewrite ref_verify_sign.
  set (p := payload_of c).
  assert (∀ k, k ≠ "exp" → <["exp" := VInt (timegm expire)]> p !! k = p !! k)
    as Hother by (intros k Hk; by rewrite lookup_insert_ne).
  unfold validate_claims.
  rewrite (Hother "iat"), (Hother "nbf"), (Hother "aud"), (Hother "sub"),
    (Hother "jti"), (Hother "at_hash") by done.
  rewrite lookup_insert_eq. subst p.
  rewrite (payload_of_reserved c "iat"), (payload_of_reserved c "nbf"),
    (payload_of_reserved c "aud"), (payload_of_reserved c "jti"),
    (payload_of_reserved c "at_hash") by done.
  rewrite (codec_safe_sub c Hsafe). simpl.
  by destruct (timegm expire <? timegm now)%Z.
Qed.

Lemma ref_jwt_decode_encode (c : Claims) (key : string) (expire : Z) :
  codec_safe c →
  ∃ token,
    ref_jwt_encode (<["exp" := CDatetime expire]> c) key = Ok token ∧
    ∀ now, ref_jwt_decode token key now =
      if (timegm expire <? timegm now)%Z then Raise JWTError
      else Ok (<["exp" := VInt (timegm expire)]> (payload_of c)).
Proof.
  intros Hsafe. eexists. split; [by apply ref_jwt_encode_exp|].
  intros now. by apply ref_jwt_decode_exp.
Qed.

Lemma claim_int_not_http v status detail headers :
  claim_int v ≠ Raise (HTTPException status detail headers).
Proof.
  destruct v as [|[]| |s|]; simpl; try done.
  by destruct (NilZero.int_of_string s).
Qed.

Lemma check_not_http b status detail headers :
  check b ≠ Raise (HTTPException status detail headers).
Proof. by destruct b. Qed.

Lemma bind_not_http {A B} (r : result A) (f : A → result B) status detail headers :
  r ≠ Raise (HTTPException status detail headers) →
  (∀ a, f a ≠ Raise (HTTPException status detail headers)) →
  bind_result r f ≠ Raise (HTTPException status detail headers).
Proof.
  destruct r as [a|e]; simpl; [auto|].
  intros Hr _ [= ->]. by apply Hr.
Qed.

Lemma ref_jwt_decode_not_http token key now status detail headers :
  ref_jwt_decode token key now ≠ Raise (HTTPException status detail headers).
Proof.
  unfold ref_jwt_decode. destruct (ref_verify token key) as [p|]; [|done].
  unfold validate_claims.
  repeat (apply bind_not_http; [|intros ?]);
    repeat match goal with
           | |- context [match ?o with Some _ => _ | None => _ end] => destruct o
           end;
    try done; try apply check_not_http;
    try (apply bind_not_http; [apply claim_int_not_http|intros ?]);
    try done; apply check_not_http.
Qed.

Definition ref_jose : Jose :=
  {| jwt_encode := ref_jwt_encode;
     jwt_decode := ref_jwt_decode;
     jwt_decode_encode := ref_jwt_decode_encode;
     jwt_decode_not_http := ref_jwt_decode_not_http |}.

(** [JWT_SECRET] is not set: the development default signs the tokens. *)
Definition ref_environ : Environ := {| JWT_SECRET := None |}.

(** *** Requests and stores of the scenarios *)

(** 1 January 2024, 12:00:00.250 UTC, in microseconds. *)
Definition noon : Z := 1704110400250000.
Definition one_hour : Z := 3600000000.

Definition salt_a : string := "abcdefghijklmnopqrstuv".

Definition body_a : Doc :=
  {[ "name" := VStr "A"; "email" := VStr "a@x.com";
     "password" := VStr "pw123"; "organization" := VStr "Acme" ]}.

(** The same request from a client that also sends a role and an active
    flag. *)
Definition body_admin : Doc :=
  <["role" := VStr "admin"]> (<["is_active" := VBool false]> body_a).

Definition record_a (active : bool) : Doc :=
  {[ "_id" := VOid 255;
     "name" := VStr "A";
     "email" := VStr "a@x.com";
     "password_hash" := VStr "$2b$12$abcdefghijklmnopqrstuv321wpvutsrqponmlkjihgfedcba";
     "role" := VStr "owner";
     "is_active" := VBool active;
     "organization" := VStr "Acme" ]}.

(** The store after user A registered, and the same store with A
    deactivated. *)
Definition db_a : Database := {[ "authuser" := [record_a true] ]}.
Definition db_inactive : Database := {[ "authuser" := [record_a false] ]}.

(** A record written without a [password_hash]. *)
Definition record_b : Doc :=
  {[ "_id" := VOid 256; "name" := VStr "B"; "email" := VStr "b@x.com" ]}.
Definition db_b : Database := {[ "authuser" := [record_b] ]}.

Definition claims_a : Claims := {[ "sub" := CJson (VStr "a@x.com") ]}.

(** The token a login of A at [noon] returns, and the same claims issued
    with a zero time-to-live. *)
Definition token_a : string :=
  Eval vm_compute in
    match @create_access_token ref_environ ref_jose claims_a None noon with
    | Ok t => t
    | Raise _ => ""
    end.

Definition payload_a : Doc :=
  {[ "sub" := VStr "a@x.com"; "exp" := VInt 1704196800 ]}.

Definition user_a : UserCreate :=
  {| uc_name := "A"; uc_email := "a@x.com"; uc_password := "pw123";
     uc_organization := Some "Acme" |}.

Definition public_a (active : bool) : UserPublic :=
  {| id := Some "0000000000000000000000ff"; name := "A"; email := "a@x.com";
     role := "owner"; is_active := active; organization := Some "Acme" |}.

Definition auth_a (active : bool) : AuthUser :=
  {| au_name := "A"; au_email := "a@x.com";
     au_password_hash := "$2b$12$abcdefghijklmnopqrstuv321wpvutsrqponmlkjihgfedcba";
     au_role := "owner"; au_is_active := active;
     au_organization := Some "Acme" |}.

(** *** The reference hasher verifies its own digests *)




(** *** Jobs of the scenarios *)

Definition job_a : JobCreate :=
  {| jc_title := "Fix boiler"; jc_customer_name := "C"; jc_customer_phone := "555";
     jc_address := "1 Main St"; jc_scheduled_at := None;
     jc_technician := Some "T" |}.

(** The document [create_job] stores for [job_a] on behalf of user A, under
    the ObjectId [oid]. *)
Definition stored_job (oid : N) : Doc :=
  {[ "_id" := VOid oid;
     "title" := VStr "Fix boiler";
     "customer_name" := VStr "C";
     "customer_phone" := VStr "555";
     "address" := VStr "1 Main St";
     "scheduled_at" := VNone;
     "technician" := VStr "T";
     "status" := VStr "scheduled";
     "created_by" := VStr "a@x.com";
     "organization" := VStr "Acme" ]}.

(** The same document as [list_jobs] returns it. *)
Definition listed_job (oid : N) : Doc :=
  <["id" := VStr (oid_hex oid)]> (delete "_id" (stored_job oid)).

(** The store of user A with one job, and with fifty. *)
Definition db_job : Database := <["job" := [stored_job 4096]]> db_a.
Definition db_full : Database :=
  <["job" := (λ n, stored_job (N.of_nat n)) <$> seq 0 50]> db_a.

(** A user of another organization. *)
Definition public_v : UserPublic :=
  {| id := Some "000000000000000000000100"; name := "V"; email := "v@y.com";
     role := "owner"; is_active := true; organization := Some "Other" |}.

(** A registration body without a password. *)
Definition body_no_password : Doc :=
  {[ "name" := VStr "A"; "email" := VStr "a@x.com" ]}.

(** The response of [create_job] for the ObjectId 4096. *)
Definition created_a : Doc :=
  {[ "id" := VStr "000000000000000000001000"; "message" := VStr "Job created" ]}.

Definition login_a : Token :=
  {| access_token := token_a; token_type := "bearer" |}.

End Reference.

(** ** Properties of the handlers *)

Section Claims.
Context `{Environ} `{EmailValidator} `{Passlib} `{Jose}.

(** *** The steps of the identity resolver *)

Lemma resolve_bad_token now token w :
  jwt_decode token SECRET_KEY now = Raise JWTError →
  get_current_user now token w = (Raise credentials_exception, w).
Proof.
  intros Hd. unfold get_current_user, mbind, M_bind, except_JWTError, lift.
  by rewrite Hd.
Qed.

Lemma resolve_no_sub now token w payload :
  jwt_decode token SECRET_KEY now = Ok payload →
  doc_get payload "sub" = VNone →
  get_current_user now token w = (Raise credentials_exception, w).
Proof.
  intros Hd Hs. unfold get_current_user, mbind, M_bind, except_JWTError, lift.
  by rewrite Hd, Hs.
Qed.

Lemma resolve_unconfigured now token payload email :
  jwt_decode token SECRET_KEY now = Ok payload →
  doc_get payload "sub" = VStr email →
  get_current_user now token None
  = (Raise (HTTPException 500 "Database not configured" None), None).
Proof.
  intros Hd Hs. unfold get_current_user, mbind, M_bind, except_JWTError, lift.
  by rewrite Hd, Hs.
Qed.

Lemma resolve_absent now token payload email db :
  jwt_decode token SECRET_KEY now = Ok payload →
  doc_get payload "sub" = VStr email →
  find_one "email" (VStr email) (collection db "authuser") = None →
  get_current_user now token (Some db) = (Raise credentials_exception, Some db).
Proof.
  intros Hd Hs Hf.
  unfold get_current_user, mbind, M_bind, except_JWTError, lift, get_user_by_email.
  rewrite Hd, Hs. simpl. by rewrite Hf.
Qed.

Lemma resolve_found now token payload email db u :
  jwt_decode token SECRET_KEY now = Ok payload →
  doc_get payload "sub" = VStr email →
  find_one "email" (VStr email) (collection db "authuser") = Some u →
  get_current_user now token (Some db)
  = (UserPublic_new
       (VStr (py_str (doc_get u "_id")))
       (doc_get u "name")
       (doc_get u "email")
       (doc_get_default u "role" (VStr "owner"))
       (doc_get_default u "is_active" (VBool true))
       (doc_get u "organization"), Some db).
Proof.
  intros Hd Hs Hf.
  unfold get_current_user, mbind, M_bind, except_JWTError, lift, get_user_by_email.
  rewrite Hd, Hs. simpl. by rewrite Hf.
Qed.

(** The resolver never writes to the store. *)
Lemma get_current_user_read_only now token w :
  (get_current_user now token w).2 = w.
Proof.
  unfold get_current_user, mbind, M_bind, except_JWTError, lift, raise.
  destruct (jwt_decode token SECRET_KEY now) as [payload|[]]; simpl; try done.
  case_bool_decide; simpl; [done|].
  destruct (TokenData_new (doc_get payload "sub")) as [td|[]]; simpl; try done.
  unfold get_user_by_email. destruct w as [db|]; simpl; [|done].
  by destruct (find_one _ _ _).
Qed.

(** *** Rejections *)

(** C4: whichever credential fault stops the identity resolver (the token
    does not decode, the payload has no [sub], or no record matches the
    subject), the caller receives the same response: status 401, detail
    "Could not validate credentials" and the header
    [WWW-Authenticate: Bearer]; the store is left as it was. *)
Theorem credential_faults_share_one_response now token w :
  jwt_decode token SECRET_KEY now = Raise JWTError
  ∨ (∃ payload, jwt_decode token SECRET_KEY now = Ok payload
                ∧ doc_get payload "sub" = VNone)
  ∨ (∃ payload email db,
       jwt_decode token SECRET_KEY now = Ok payload
       ∧ doc_get payload "sub" = VStr email
       ∧ w = Some db
       ∧ find_one "email" (VStr email) (collection db "authuser") = None) →
  get_current_user now token w
  = (Raise (HTTPException 401 "Could not validate credentials"
              (Some {[ "WWW-Authenticate" := "Bearer" ]})), w).
Proof.
  intros [Hd|[(payload & Hd & Hs)|(payload & email & db & Hd & Hs & -> & Hf)]].
  - by apply resolve_bad_token.
  - by eapply resolve_no_sub.
  - by eapply resolve_absent.
Qed.

(** C5: with no database configured the resolver fails with status 500
    and detail "Database not configured", which is not the 401 rejection,
    and it does so exactly when the token decoded and carried a subject:
    the failure comes from the store lookup. *)
Theorem unconfigured_store_fails_at_lookup now token :
  (get_current_user now token None
   = (Raise (HTTPException 500 "Database not configured" None), None)
   ↔ ∃ payload email, jwt_decode token SECRET_KEY now = Ok payload
                      ∧ doc_get payload "sub" = VStr email)
  ∧ HTTPException 500 "Database not configured" None ≠ credentials_exception.
Proof.
  split; [split|done].
  - unfold get_current_user, mbind, M_bind, except_JWTError, lift, raise.
    destruct (jwt_decode token SECRET_KEY now) as [payload|e] eqn:Hd.
    + case_bool_decide as Hs; simpl; [done|].
      destruct (doc_get payload "sub") as [| | |email|] eqn:Hsub; try done.
      intros _. by exists payload, email.
    + destruct e; try done.
      by destruct (jwt_decode_not_http token SECRET_KEY now status_code detail headers).
  - intros (payload & email & Hd & Hs). by eapply resolve_unconfigured.
Qed.


(** *** The identity the resolver returns *)

Lemma doc_get_delete (d : Doc) k k' :
  k ≠ k' → doc_get (delete k' d) k = doc_get d k.
Proof. intros Hk. unfold doc_get. by rewrite lookup_delete_ne. Qed.

Lemma doc_get_default_delete (d : Doc) k k' dflt :
  k ≠ k' → doc_get_default (delete k' d) k dflt = doc_get_default d k dflt.
Proof. intros Hk. unfold doc_get_default. by rewrite lookup_delete_ne. Qed.

Lemma field_matches_delete field v k (d : Doc) :
  field ≠ k → field_matches field v (delete k d) = field_matches field v d.
Proof. intros Hk. unfold field_matches. by rewrite doc_get_delete. Qed.

(** Two collections that agree once [k] is removed from every document
    answer a query on another field with documents that agree likewise. *)
Lemma find_one_delete field v k (c c' : Collection) :
  field ≠ k →
  delete k <$> c = delete k <$> c' →
  delete k <$> find_one field v c = delete k <$> find_one field v c'.
Proof.
  intros Hk. unfold find_one. revert c'.
  induction c as [|d c IH]; intros [|d' c']; simpl; try done.
  intros [= Hd Hc].
  rewrite <- (field_matches_delete field v k d), <- (field_matches_delete field v k d'), Hd
    by done.
  destruct (field_matches field v (delete k d')); simpl; [by rewrite Hd|by apply IH].
Qed.

Lemma UserPublic_new_conforming (u : Doc) a i :
  AuthUser_validate u = Ok a →
  UserPublic_new (VStr i) (doc_get u "name") (doc_get u "email")
    (doc_get_default u "role" (VStr "owner"))
    (doc_get_default u "is_active" (VBool true))
    (doc_get u "organization")
  = Ok {| id := Some i; name := au_name a; email := au_email a;
          role := au_role a; is_active := au_is_active a;
          organization := au_organization a |}.
Proof.
  unfold AuthUser_validate, UserPublic_new. simpl.
  destruct (validate_str (doc_get u "name")); simpl; [|done].
  destruct (validate_EmailStr (doc_get u "email")); simpl; [|done].
  destruct (validate_str (doc_get u "password_hash")); simpl; [|done].
  destruct (validate_str (doc_get_default u "role" (VStr "owner"))); simpl; [|done].
  destruct (validate_bool (doc_get_default u "is_active" (VBool true))); simpl; [|done].
  destruct (validate_opt_str (doc_get u "organization")); simpl; [|done].
  by intros [= <-].
Qed.

(** C6: for a valid token whose subject matches a record, every field of
    the identity the resolver returns is read from the record's [_id],
    [name], [email], [role], [is_active] and [organization]; and the
    response does not depend on what any record holds as
    [password_hash]: two stores that agree once that field is removed
    from every record give the same response. *)
Theorem identity_excludes_password_hash now token payload subject :
  jwt_decode token SECRET_KEY now = Ok payload →
  doc_get payload "sub" = VStr subject →
  (∀ db u ident,
      find_one "email" (VStr subject) (collection db "authuser") = Some u →
      get_current_user now token (Some db) = (Ok ident, Some db) →
      id ident = Some (py_str (doc_get u "_id"))
      ∧ validate_str (doc_get u "name") = Ok (name ident)
      ∧ validate_EmailStr (doc_get u "email") = Ok (email ident)
      ∧ validate_str (doc_get_default u "role" (VStr "owner")) = Ok (role ident)
      ∧ validate_bool (doc_get_default u "is_active" (VBool true))
        = Ok (is_active ident)
      ∧ validate_opt_str (doc_get u "organization") = Ok (organization ident))
  ∧ (∀ db db',
      delete "password_hash" <$> collection db "authuser"
      = delete "password_hash" <$> collection db' "authuser" →
      (get_current_user now token (Some db)).1
      = (get_current_user now token (Some db')).1).
Proof.
  intros Hd Hs. split.
  - intros db u ident Hf. rewrite (resolve_found _ _ _ _ _ _ Hd Hs Hf).
    unfold UserPublic_new. simpl.
    destruct (validate_str (doc_get u "name")); simpl; [|done].
    destruct (validate_EmailStr (doc_get u "email")); simpl; [|done].
    destruct (validate_str (doc_get_default u "role" (VStr "owner"))); simpl; [|done].
    destruct (validate_bool (doc_get_default u "is_active" (VBool true))); simpl; [|done].
    destruct (validate_opt_str (doc_get u "organization")); simpl; [|done].
    by intros [= <-].
  - intros db db' Hagree.
    pose proof (find_one_delete "email" (VStr subject) "password_hash" _ _
                  ltac:(done) Hagree) as Hfind.
    destruct (find_one "email" (VStr subject) (collection db "authuser"))
      as [u|] eqn:Hf;
      destruct (find_one "email" (VStr subject) (collection db' "authuser"))
      as [u'|] eqn:Hf'; try done.
    + rewrite (resolve_found _ _ _ _ _ _ Hd Hs Hf),
        (resolve_found _ _ _ _ _ _ Hd Hs Hf'). simpl.
      injection Hfind as Hu.
      rewrite <- (doc_get_delete u "_id" "password_hash"),
        <- (doc_get_delete u "name" "password_hash"),
        <- (doc_get_delete u "email" "password_hash"),
        <- (doc_get_default_delete u "role" "password_hash"),
        <- (doc_get_default_delete u "is_active" "password_hash"),
        <- (doc_get_delete u "organization" "password_hash"), Hu by done.
      by rewrite !doc_get_delete, !doc_get_default_delete by done.
    + by rewrite (resolve_absent _ _ _ _ _ Hd Hs Hf),
        (resolve_absent _ _ _ _ _ Hd Hs Hf').
Qed.

(** C7: the resolver does not look at [is_active]. For a valid token whose
    subject matches a record that conforms to the schema, it returns an
    identity whatever the flag holds, in particular when it is false. *)
Theorem inactive_user_still_resolves now token payload subject db u a b :
  jwt_decode token SECRET_KEY now = Ok payload →
  doc_get payload "sub" = VStr subject →
  find_one "email" (VStr subject) (collection db "authuser") = Some u →
  AuthUser_validate u = Ok a →
  u !! "is_active" = Some (VBool b) →
  ∃ ident, get_current_user now token (Some db) = (Ok ident, Some db)
           ∧ is_active ident = b.
Proof.
  intros Hd Hs Hf Ha Hb. rewrite (resolve_found _ _ _ _ _ _ Hd Hs Hf).
  rewrite (UserPublic_new_conforming u a _ Ha). eexists. split; [done|]. simpl.
  unfold AuthUser_validate in Ha.
  destruct (validate_str (doc_get u "name")); simpl in Ha; [|done].
  destruct (validate_EmailStr (doc_get u "email")); simpl in Ha; [|done].
  destruct (validate_str (doc_get u "password_hash")); simpl in Ha; [|done].
  destruct (validate_str (doc_get_default u "role" (VStr "owner"))); simpl in Ha; [|done].
  unfold doc_get_default in Ha. rewrite Hb in Ha. simpl in Ha.
  destruct (validate_opt_str (doc_get u "organization")); simpl in Ha; [|done].
  by injection Ha as <-.
Qed.

(** *** Tokens *)

Lemma timegm_mono (a b : Z) : (a ≤ b → timegm a ≤ timegm b)%Z.
Proof. intros Hab. unfold timegm. apply Z.div_le_mono; lia. Qed.

Lemma timegm_next_second (a b : Z) : (a + 1000000 ≤ b → timegm a < timegm b)%Z.
Proof.
  intros Hab. unfold timegm.
  assert ((a + 1 * 1000000) `div` 1000000 ≤ b `div` 1000000)%Z as Hle
    by (apply Z.div_le_mono; lia).
  rewrite Z.div_add in Hle by lia. lia.
Qed.

(** A zero [expires_delta] is falsy and is replaced by the default. *)
Lemma zero_ttl_is_default (c : Claims) now :
  create_access_token c (Some 0) now = create_access_token c None now.
Proof. done. Qed.


Lemma find_one_matches field v (c : Collection) u :
  find_one field v c = Some u → u ∈ c ∧ doc_get u field = v.
Proof.
  unfold find_one. intros [Hin Hm]%find_some. split.
  - by apply list_elem_of_In.
  - unfold field_matches in Hm. by apply bool_decide_eq_true in Hm.
Qed.

Lemma conforms_spec (u : Doc) :
  conforms u = true →
  ∃ a, AuthUser_validate u = Ok a ∧ doc_get u "email" = VStr (au_email a).
Proof.
  unfold conforms. destruct (AuthUser_validate u) as [a|]; [|done].
  intros Ha%bool_decide_eq_true. by exists a.
Qed.

(** C1: in a store whose records conform to the schema, the token a
    successful login for user [U] returns resolves, while it has not
    expired, to an identity whose email is the email of [U]. *)
Theorem login_token_resolves_to_user (now now' : Z) password db (U : Doc) username
    tok w' :
  store_conforms db →
  U ∈ collection db "authuser" →
  doc_get U "email" = VStr username →
  login now username password (Some db) = (Ok tok, w') →
  (now' ≤ now + timedelta_minutes ACCESS_TOKEN_EXPIRE_MINUTES)%Z →
  ∃ ident,
    get_current_user now' (access_token tok) w' = (Ok ident, w')
    ∧ email ident = username.
Proof.
  intros Hstore _ _ Hlogin Hnow.
  unfold login, mbind, M_bind, get_user_by_email, lift, raise in Hlogin.
  destruct (find_one "email" (VStr username) (collection db "authuser"))
    as [u|] eqn:Hf; [|done].
  destruct (negb (truthy (Some u))); [done|].
  destruct (verify_password _ _) as [[]|]; try done. simpl in Hlogin.
  destruct (find_one_matches _ _ _ _ Hf) as [Hin Hemail].
  assert (u !! "email" = Some (VStr username)) as Hlk.
  { unfold doc_get in Hemail. by destruct (u !! "email"); simplify_eq/=. }
  unfold doc_index in Hlogin. rewrite Hlk in Hlogin.
  assert (codec_safe {[ "sub" := CJson (VStr username) ]}) as Hsafe.
  { by apply map_Forall_singleton. }
  destruct (jwt_decode_encode _ SECRET_KEY
              (now + timedelta_minutes ACCESS_TOKEN_EXPIRE_MINUTES) Hsafe)
    as (token & He & Hdec).
  unfold create_access_token, delta_or_default in Hlogin.
  rewrite He in Hlogin. injection Hlogin as <- <-. simpl.
  specialize (Hdec now'). apply timegm_mono in Hnow.
  destruct (Z.ltb_spec (timegm (now + timedelta_minutes ACCESS_TOKEN_EXPIRE_MINUTES))
              (timegm now')); [lia|].
  unfold store_conforms in Hstore. rewrite Forall_forall in Hstore.
  destruct (conforms_spec u (Hstore u Hin)) as (a & Ha & Hnorm).
  rewrite (resolve_found now' token _ username db u Hdec); [|done|done].
  rewrite (UserPublic_new_conforming u a _ Ha). eexists. split; [done|]. simpl.
  congruence.
Qed.

(** *** Registration *)



(** A document returned by a query on a string field is not empty. *)
Lemma found_is_truthy field s (c : Collection) u :
  find_one field (VStr s) c = Some u → truthy (Some u) = true.
Proof.
  intros [_ Hm]%find_one_matches. simpl.
  apply negb_true_iff, bool_decide_eq_false. intros ->.
  unfold doc_get in Hm. by rewrite lookup_empty in Hm.
Qed.

(** The email of a validated request is in normal form. *)
Lemma UserCreate_validate_email body user :
  UserCreate_validate body = Ok user →
  validate_EmailStr (VStr (uc_email user)) = Ok (uc_email user).
Proof.
  unfold UserCreate_validate.
  destruct (validate_str (doc_get body "name")); simpl; [|done].
  destruct (validate_EmailStr (doc_get body "email")) as [e|] eqn:He; simpl; [|done].
  destruct (validate_str (doc_get body "password")); simpl; [|done].
  destruct (validate_opt_str (doc_get body "organization")); simpl; [|done].
  intros [= <-]. simpl. unfold validate_EmailStr in *.
  destruct (doc_get body "email") as [| | |s|]; try done.
  destruct (validate_email s) as [e'|] eqn:Hs; [|done].
  injection He as ->. by rewrite (validate_email_idem _ _ Hs).
Qed.

Lemma validate_opt_str_opt_value o : validate_opt_str (opt_value o) = Ok o.
Proof. by destruct o. Qed.

(** What [register] does once the email is known to be free. *)
Lemma register_fresh user salt oid db h :
  find_one "email" (VStr (uc_email user)) (collection db "authuser") = None →
  id_taken (VOid oid) (collection db "authuser") = false →
  get_password_hash salt (uc_password user) = Ok h →
  validate_EmailStr (VStr (uc_email user)) = Ok (uc_email user) →
  register user salt oid (Some db)
  = (Ok {| id := Some (oid_hex oid); name := uc_name user;
           email := uc_email user; role := "owner"; is_active := true;
           organization := uc_organization user |},
     Some (<["authuser" :=
              (collection db "authuser" ++
               [<["_id" := VOid oid]>
                  ({[ "name" := VStr (uc_name user);
                      "email" := VStr (uc_email user);
                      "password_hash" := VStr h;
                      "role" := VStr "owner";
                      "is_active" := VBool true;
                      "organization" := opt_value (uc_organization user) ]} : Doc)]
              )%list]> db)).
Proof.
  intros Hf Hid Hh He.
  unfold register, mbind, M_bind, get_db, get_user_by_email, lift, raise, insert_one.
  simpl. rewrite Hf. simpl. rewrite Hh. simpl.
  match goal with
  | |- context [default (VOid oid) ?l] => replace l with (@None Value) by done
  end.
  simpl. rewrite Hid. unfold UserPublic_new. rewrite He. simpl.
  by rewrite validate_opt_str_opt_value.
Qed.

Lemma register_duplicate user salt oid db u :
  find_one "email" (VStr (uc_email user)) (collection db "authuser") = Some u →
  register user salt oid (Some db)
  = (Raise (HTTPException 400 "Email already registered" None), Some db).
Proof.
  intros Hf.
  unfold register, mbind, M_bind, get_db, get_user_by_email, lift, raise.
  simpl. rewrite Hf. by rewrite (found_is_truthy _ _ _ _ Hf).
Qed.

Lemma register_request_validated body user salt oid w :
  UserCreate_validate body = Ok user →
  register_request body salt oid w = register user salt oid w.
Proof.
  intros Hv. unfold register_request, mbind, M_bind, lift. by rewrite Hv.
Qed.


Lemma doc_get_insert_ne (d : Doc) k k' v :
  k ≠ k' → doc_get (<[k' := v]> d) k = doc_get d k.
Proof. intros Hk. unfold doc_get. by rewrite lookup_insert_ne. Qed.

(** The request model reads four fields of the body and nothing else. *)
Lemma UserCreate_validate_ignores body k v :
  str_in k ["name"; "email"; "password"; "organization"] = false →
  UserCreate_validate (<[k := v]> body) = UserCreate_validate body.
Proof.
  intros Hk. unfold UserCreate_validate.
  rewrite !doc_get_insert_ne; [done|..]; by intros <-.
Qed.

(** Every way [register] can return normally. *)
Lemma register_ok_inv user salt oid w pub w' :
  register user salt oid w = (Ok pub, w') →
  ∃ db h,
    w = Some db
    ∧ find_one "email" (VStr (uc_email user)) (collection db "authuser") = None
    ∧ id_taken (VOid oid) (collection db "authuser") = false
    ∧ get_password_hash salt (uc_password user) = Ok h
    ∧ validate_EmailStr (VStr (uc_email user)) = Ok (email pub).
Proof.
  unfold register, mbind, M_bind, get_db, get_user_by_email, lift, raise, insert_one.
  destruct w as [db|]; simpl; [|by (intros ?; simplify_eq)].
  destruct (find_one "email" (VStr (uc_email user)) (collection db "authuser"))
    as [u|] eqn:Hf.
  { rewrite (found_is_truthy _ _ _ _ Hf). by (intros ?; simplify_eq). }
  simpl. destruct (get_password_hash salt (uc_password user)) as [h|] eqn:Hh;
    simpl; [|by (intros ?; simplify_eq)].
  match goal with
  | |- context [default (VOid oid) ?l] => replace l with (@None Value) by done
  end.
  simpl. destruct (id_taken (VOid oid) (collection db "authuser")) eqn:Hid;
    simpl; [by (intros ?; simplify_eq)|].
  unfold UserPublic_new. simpl.
  destruct (validate_email (uc_email user)) as [e|] eqn:He;
    simpl; [|by (intros ?; simplify_eq)].
  rewrite validate_opt_str_opt_value. simpl.
  intros [= <- <-]. by exists db, h.
Qed.

(** C10: a registration request cannot choose its role or its active
    flag. The request model ignores a ["role"] or ["is_active"] entry of
    the body, and whenever registration returns, the public record it
    returns and the document it stored hold the role "owner" and the
    active flag true. *)
Theorem register_forces_owner_and_active body salt oid w :
  (∀ v, register_request (<["role" := v]> body) salt oid w
        = register_request body salt oid w)
  ∧ (∀ v, register_request (<["is_active" := v]> body) salt oid w
          = register_request body salt oid w)
  ∧ (∀ pub w',
      register_request body salt oid w = (Ok pub, w') →
      role pub = "owner" ∧ is_active pub = true
      ∧ ∃ db (doc : Doc),
          w = Some db
          ∧ w' = Some (<["authuser" := (collection db "authuser" ++ [doc])%list]> db)
          ∧ doc !! "email" = Some (VStr (email pub))
          ∧ doc !! "role" = Some (VStr "owner")
          ∧ doc !! "is_active" = Some (VBool true)).
Proof.
  split; [|split].
  - intros v. unfold register_request. by rewrite UserCreate_validate_ignores.
  - intros v. unfold register_request. by rewrite UserCreate_validate_ignores.
  - intros pub w' Hreg.
    destruct (UserCreate_validate body) as [user|] eqn:Hv; last first.
    { unfold register_request, mbind, M_bind, lift in Hreg. by rewrite Hv in Hreg. }
    rewrite (register_request_validated _ _ _ _ _ Hv) in Hreg.
    destruct (register_ok_inv _ _ _ _ _ _ Hreg) as (db & h & -> & Hf & Hid & Hh & _).
    rewrite (register_fresh _ _ _ _ _ Hf Hid Hh (UserCreate_validate_email _ _ Hv))
      in Hreg.
    injection Hreg as <- <-. simpl. do 2 (split; [done|]).
    eexists db, _. split; [done|]. split; [done|]. done.
Qed.

(** X9: registration keeps the store conforming to [schemas.AuthUser],
    whether it succeeds or fails. *)
Lemma register_request_preserves_conformance body salt oid db r db' :
  store_conforms db →
  register_request body salt oid (Some db) = (r, Some db') →
  store_conforms db'.
Proof.
  intros Hstore Hreg.
  destruct (UserCreate_validate body) as [user|] eqn:Hv; last first.
  { unfold register_request, mbind, M_bind, lift in Hreg. rewrite Hv in Hreg.
    by injection Hreg as _ <-. }
  rewrite (register_request_validated _ _ _ _ _ Hv) in Hreg.
  pose proof (UserCreate_validate_email _ _ Hv) as He.
  destruct (find_one "email" (VStr (uc_email user)) (collection db "authuser"))
    as [u|] eqn:Hf.
  { rewrite (register_duplicate _ _ _ _ _ Hf) in Hreg. by injection Hreg as _ <-. }
  destruct (get_password_hash salt (uc_password user)) as [h|e] eqn:Hh; last first.
  { unfold register, mbind, M_bind, get_db, get_user_by_email, lift, raise in Hreg.
    simpl in Hreg. rewrite Hf in Hreg. simpl in Hreg. rewrite Hh in Hreg.
    by injection Hreg as _ <-. }
  destruct (id_taken (VOid oid) (collection db "authuser")) eqn:Hid.
  { unfold register, mbind, M_bind, get_db, get_user_by_email, lift, raise,
      insert_one in Hreg.
    simpl in Hreg. rewrite Hf in Hreg. simpl in Hreg. rewrite Hh in Hreg.
    simpl in Hreg.
    match type of Hreg with
    | context [default (VOid oid) ?l] => replace l with (@None Value) in Hreg by done
    end.
    simpl in Hreg. rewrite Hid in Hreg. by injection Hreg as _ <-. }
  rewrite (register_fresh _ _ _ _ _ Hf Hid Hh He) in Hreg.
  injection Hreg as _ <-.
  unfold store_conforms, collection. rewrite lookup_insert_eq. simpl.
  apply Forall_app. split; [done|]. apply Forall_singleton.
  unfold conforms, AuthUser_validate, doc_get, doc_get_default.
  rewrite !lookup_insert, !lookup_singleton. simpl.
  simpl in He. destruct (validate_email (uc_email user)) as [e|]; [|done].
  injection He as ->. simpl. rewrite validate_opt_str_opt_value. simpl.
  by apply bool_decide_eq_true.
Qed.

(** *** The hasher boundary *)

(** X5: [verify_password] adds nothing to the library call, and [login] has
    no handler around it: an exception the hasher raises on the digest of
    the record found leaves [login] unchanged, and the store is as it
    was. *)
Lemma login_propagates_hasher_error now username password db u e :
  find_one "email" (VStr username) (collection db "authuser") = Some u →
  pwd_verify password (doc_get_default u "password_hash" (VStr "")) = Raise e →
  login now username password (Some db) = (Raise e, Some db).
Proof.
  intros Hf Hv.
  unfold login, mbind, M_bind, get_user_by_email, lift, raise, verify_password.
  rewrite Hf, (found_is_truthy _ _ _ _ Hf). simpl. by rewrite Hv.
Qed.

End Claims.

(** ** How the handlers compose *)

Section Composition.
Context `{Environ} `{EmailValidator} `{Passlib} `{Jose}.

(** *** What the validators raise *)

Lemma validate_str_raises v e : validate_str v = Raise e → e = ValidationError.
Proof. destruct v; simpl; congruence. Qed.

Lemma validate_opt_str_raises v e : validate_opt_str v = Raise e → e = ValidationError.
Proof. destruct v; simpl; congruence. Qed.

Lemma validate_bool_raises v e : validate_bool v = Raise e → e = ValidationError.
Proof.
  destruct v as [| |[|[| |]|]|s|]; simpl; try congruence.
  repeat match goal with |- context [if ?b then _ else _] => destruct b end;
    congruence.
Qed.

Lemma validate_EmailStr_raises v e : validate_EmailStr v = Raise e → e = ValidationError.
Proof.
  destruct v as [| | |s|]; simpl; try congruence.
  destruct (validate_email s); congruence.
Qed.

Lemma UserPublic_new_raises i n m r a o e :
  UserPublic_new i n m r a o = Raise e → e = ValidationError.
Proof.
  unfold UserPublic_new.
  destruct (validate_opt_str i) eqn:Hi; simpl; [|intros [= <-]; by eapply validate_opt_str_raises].
  destruct (validate_str n) eqn:Hn; simpl; [|intros [= <-]; by eapply validate_str_raises].
  destruct (validate_EmailStr m) eqn:Hm; simpl;
    [|intros [= <-]; by eapply validate_EmailStr_raises].
  destruct (validate_str r) eqn:Hr; simpl; [|intros [= <-]; by eapply validate_str_raises].
  destruct (validate_bool a) eqn:Ha; simpl; [|intros [= <-]; by eapply validate_bool_raises].
  destruct (validate_opt_str o) eqn:Ho; simpl;
    [done|intros [= <-]; by eapply validate_opt_str_raises].
Qed.

(** *** The identity resolver *)

(** X1: the resolver returns an identity only for a token that decodes
    with a string subject, against a configured store that holds a record
    with that email; the store is returned as it was. *)
Theorem resolver_identity_is_sound now token w ident w' :
  get_current_user now token w = (Ok ident, w') →
  ∃ payload subject db u,
    jwt_decode token SECRET_KEY now = Ok payload
    ∧ doc_get payload "sub" = VStr subject
    ∧ w = Some db ∧ w' = Some db
    ∧ find_one "email" (VStr subject) (collection db "authuser") = Some u
    ∧ doc_get u "email" = VStr subject.
Proof.
  unfold get_current_user, mbind, M_bind, except_JWTError, lift, raise.
  destruct (jwt_decode token SECRET_KEY now) as [payload|e] eqn:Hd;
    [|by destruct e].
  case_bool_decide as Hs; simpl; [done|].
  destruct (doc_get payload "sub") as [| | |subject|] eqn:Hsub; try done.
  simpl. unfold get_user_by_email. destruct w as [db|]; simpl; [|done].
  destruct (find_one "email" (VStr subject) (collection db "authuser"))
    as [u|] eqn:Hf; simpl; [|done].
  intros [= _ <-]. exists payload, subject, db, u.
  by destruct (find_one_matches _ _ _ _ Hf).
Qed.

(** X2: the only HTTP errors the resolver raises are the 401 credentials
    rejection and, when no database is configured, the 500. *)
Theorem resolver_http_errors now token w status detail headers w' :
  get_current_user now token w = (Raise (HTTPException status detail headers), w') →
  HTTPException status detail headers = credentials_exception
  ∨ (HTTPException status detail headers
     = HTTPException 500 "Database not configured" None ∧ w = None).
Proof.
  unfold get_current_user, mbind, M_bind, except_JWTError, lift, raise.
  destruct (jwt_decode token SECRET_KEY now) as [payload|e] eqn:Hd.
  - case_bool_decide as Hs; simpl; [intros [= <- <- <-]; by left|].
    destruct (doc_get payload "sub") as [| | |subject|] eqn:Hsub; try done.
    simpl. unfold get_user_by_email. destruct w as [db|]; simpl.
    + destruct (find_one "email" (VStr subject) (collection db "authuser"))
        as [u|] eqn:Hf; simpl; [|intros [= <- <- <-]; by left].
      intros [= Hnew _]. by apply UserPublic_new_raises in Hnew.
    + intros [= <- <- <-]. by right.
  - destruct e; try done.
    + by destruct (jwt_decode_not_http token SECRET_KEY now status_code detail0 headers0).
    + intros [= <- <- <-]. by left.
Qed.

(** [login] reads the store and never writes to it. *)
Lemma login_read_only now username password w :
  (login now username password w).2 = w.
Proof.
  unfold login, mbind, M_bind, get_user_by_email, lift, raise.
  destruct w as [db|]; simpl; [|done].
  destruct (find_one "email" (VStr username) (collection db "authuser")) as [u|];
    simpl; [|done].
  destruct (bool_decide (u = ∅)); simpl; [done|].
  destruct (verify_password _ _) as [[]|]; simpl; try done.
  destruct (doc_index u "email"); simpl; [|done].
  by destruct (create_access_token _ _ _).
Qed.

(** X3: neither resolving an identity nor logging in changes the store,
    whatever the token, the credentials and the outcome. *)
Theorem authentication_never_writes now token username password w :
  (get_current_user now token w).2 = w
  ∧ (login now username password w).2 = w.
Proof. split; [apply get_current_user_read_only|apply login_read_only]. Qed.

(** *** Login and the lifetime of its token *)

(** Every way [login] can return normally. *)
Lemma login_ok_inv now username password w tok w' :
  login now username password w = (Ok tok, w') →
  ∃ db u,
    w = Some db ∧ w' = Some db
    ∧ find_one "email" (VStr username) (collection db "authuser") = Some u
    ∧ pwd_verify password (doc_get_default u "password_hash" (VStr "")) = Ok true
    ∧ create_access_token {[ "sub" := CJson (VStr username) ]} None now
      = Ok (access_token tok)
    ∧ token_type tok = "bearer".
Proof.
  unfold login, mbind, M_bind, get_user_by_email, lift, raise, verify_password.
  destruct w as [db|]; simpl; [|done].
  destruct (find_one "email" (VStr username) (collection db "authuser"))
    as [u|] eqn:Hf; simpl; [|done].
  destruct (bool_decide (u = ∅)); simpl; [done|].
  destruct (pwd_verify password _) as [[]|] eqn:Hv; simpl; try done.
  destruct (find_one_matches _ _ _ _ Hf) as [_ Hemail].
  assert (u !! "email" = Some (VStr username)) as Hlk.
  { unfold doc_get in Hemail. by destruct (u !! "email"); simplify_eq/=. }
  unfold doc_index. rewrite Hlk. simpl.
  destruct (create_access_token _ None now) as [t|] eqn:Ht; simpl; [|done].
  intros [= <- <-]. by exists db, u.
Qed.

(** X4: [login] issues a token only when the store holds a record for the
    email and the hasher accepted the password against the digest of that
    record; the token is a bearer token whose subject is the email. *)
Theorem login_token_is_earned now username password w tok w' :
  login now username password w = (Ok tok, w') →
  ∃ db u,
    w = Some db
    ∧ find_one "email" (VStr username) (collection db "authuser") = Some u
    ∧ verify_password password (doc_get_default u "password_hash" (VStr ""))
      = Ok true
    ∧ create_access_token {[ "sub" := CJson (VStr username) ]} None now
      = Ok (access_token tok)
    ∧ token_type tok = "bearer".
Proof.
  intros (db & u & -> & _ & Hf & Hv & Ht & Hb)%login_ok_inv. by exists db, u.
Qed.

(** What a token is worth, whatever [expires_delta] was passed. *)
Lemma token_lifetime (c : Claims) expires_delta (now : Z) :
  codec_safe c →
  ∃ token,
    create_access_token c expires_delta now = Ok token
    ∧ ∀ now' : Z,
        ((now' ≤ now + delta_or_default expires_delta)%Z →
         jwt_decode token SECRET_KEY now'
         = Ok (<["exp" := VInt (timegm (now + delta_or_default expires_delta))]>
                 (payload_of c)))
        ∧ ((now + delta_or_default expires_delta + 1000000 ≤ now')%Z →
           jwt_decode token SECRET_KEY now' = Raise JWTError).
Proof.
  intros Hsafe.
  destruct (jwt_decode_encode c SECRET_KEY (now + delta_or_default expires_delta) Hsafe)
    as (token & He & Hdec).
  exists token. split; [done|].
  intros now'. rewrite Hdec. split; intros Hnow.
  - apply timegm_mono in Hnow.
    by destruct (Z.ltb_spec (timegm (now + delta_or_default expires_delta)) (timegm now'));
      [lia|].
  - apply timegm_next_second in Hnow.
    by destruct (Z.ltb_spec (timegm (now + delta_or_default expires_delta)) (timegm now'));
      [|lia].
Qed.

(** X6: a token issued without a time-to-live, or with a zero one, is valid
    for 1440 minutes: it decodes up to that instant and is rejected from
    one second after it. *)
Theorem default_token_lifetime_is_one_day (c : Claims) expires_delta (now : Z) :
  codec_safe c →
  expires_delta = None ∨ expires_delta = Some 0 →
  ∃ token,
    create_access_token c expires_delta now = Ok token
    ∧ ∀ now' : Z,
        ((now' ≤ now + 86400000000)%Z →
         jwt_decode token SECRET_KEY now'
         = Ok (<["exp" := VInt (timegm (now + 86400000000))]> (payload_of c)))
        ∧ ((now + 86400000000 + 1000000 ≤ now')%Z →
           jwt_decode token SECRET_KEY now' = Raise JWTError).
Proof.
  intros Hsafe Hdelta.
  destruct (token_lifetime c expires_delta now Hsafe) as (token & Ht & Hlife).
  exists token. split; [done|].
  by destruct Hdelta as [-> | ->].
Qed.

(** X7: once the 1440 minutes of a login token are over by a second, the
    resolver rejects it with the 401, against any store. *)
Theorem expired_login_token_is_rejected (now now' : Z) username password w tok w' w2 :
  login now username password w = (Ok tok, w') →
  (now + default_lifetime + 1000000 ≤ now')%Z →
  get_current_user now' (access_token tok) w2 = (Raise credentials_exception, w2).
Proof.
  intros (db & u & _ & _ & _ & _ & Ht & _)%login_ok_inv Hnow.
  assert (codec_safe {[ "sub" := CJson (VStr username) ]}) as Hsafe
    by (by apply map_Forall_singleton).
  destruct (token_lifetime _ None now Hsafe) as (token & Ht' & Hlife).
  rewrite Ht in Ht'. injection Ht' as ->.
  apply resolve_bad_token. by apply Hlife.
Qed.

(** *** Registration *)

Lemma find_one_app_absent field v (c l : Collection) :
  find_one field v c = None → find_one field v (c ++ l) = find_one field v l.
Proof.
  unfold find_one. induction c as [|d c IH]; simpl; [done|].
  destruct (field_matches field v d); [done|apply IH].
Qed.

Lemma find_one_absent_spec field v (c : Collection) d :
  find_one field v c = None → d ∈ c → doc_get d field ≠ v.
Proof.
  unfold find_one. intros Hnone Hin%list_elem_of_In Heq.
  pose proof (find_none _ _ Hnone d Hin) as Hm.
  unfold field_matches in Hm. by rewrite bool_decide_eq_true_2 in Hm.
Qed.

Lemma collection_insert_eq (db : Database) name c :
  collection (<[name := c]> db) name = c.
Proof. unfold collection. by rewrite lookup_insert_eq. Qed.

Lemma collection_insert_ne (db : Database) name name' c :
  name ≠ name' → collection (<[name := c]> db) name' = collection db name'.
Proof. intros Hne. unfold collection. by rewrite lookup_insert_ne. Qed.

(** The outcomes of [register] on a validated request: an exception that
    leaves the store as it was, or one new document and its public
    record. *)
Lemma register_outcome body user salt oid db r w' :
  UserCreate_validate body = Ok user →
  register user salt oid (Some db) = (r, w') →
  (w' = Some db ∧ ∃ e, r = Raise e)
  ∨ ∃ h (doc : Doc),
      find_one "email" (VStr (uc_email user)) (collection db "authuser") = None
      ∧ get_password_hash salt (uc_password user) = Ok h
      ∧ r = Ok {| id := Some (oid_hex oid); name := uc_name user;
                  email := uc_email user; role := "owner"; is_active := true;
                  organization := uc_organization user |}
      ∧ w' = Some (<["authuser" := (collection db "authuser" ++ [doc])%list]> db)
      ∧ doc !! "_id" = Some (VOid oid)
      ∧ doc !! "name" = Some (VStr (uc_name user))
      ∧ doc !! "email" = Some (VStr (uc_email user))
      ∧ doc !! "password_hash" = Some (VStr h)
      ∧ doc !! "role" = Some (VStr "owner")
      ∧ doc !! "is_active" = Some (VBool true)
      ∧ doc !! "organization" = Some (opt_value (uc_organization user))
      ∧ doc !! "password" = None.
Proof.
  intros Hv Hreg.
  pose proof (UserCreate_validate_email _ _ Hv) as He.
  destruct (find_one "email" (VStr (uc_email user)) (collection db "authuser"))
    as [u|] eqn:Hf.
  { rewrite (register_duplicate _ _ _ _ _ Hf) in Hreg. injection Hreg as <- <-.
    left. eauto. }
  destruct (get_password_hash salt (uc_password user)) as [h|e] eqn:Hh; last first.
  { unfold register, mbind, M_bind, get_db, get_user_by_email, lift, raise in Hreg.
    simpl in Hreg. rewrite Hf in Hreg. simpl in Hreg. rewrite Hh in Hreg.
    injection Hreg as <- <-. left. eauto. }
  destruct (id_taken (VOid oid) (collection db "authuser")) eqn:Hid.
  { unfold register, mbind, M_bind, get_db, get_user_by_email, lift, raise,
      insert_one in Hreg.
    simpl in Hreg. rewrite Hf in Hreg. simpl in Hreg. rewrite Hh in Hreg.
    simpl in Hreg.
    match type of Hreg with
    | context [default (VOid oid) ?l] => replace l with (@None Value) in Hreg by done
    end.
    simpl in Hreg. rewrite Hid in Hreg. injection Hreg as <- <-. left. eauto. }
  rewrite (register_fresh _ _ _ _ _ Hf Hid Hh He) in Hreg.
  injection Hreg as <- <-. right. eexists h, _.
  do 4 (split; [done|]). repeat split; done.
Qed.

(** X8: a registration request that ends in an exception has stored
    nothing. *)
Theorem failed_registration_stores_nothing body salt oid w e w' :
  register_request body salt oid w = (Raise e, w') →
  w' = w.
Proof.
  intros Hreg.
  destruct (UserCreate_validate body) as [user|] eqn:Hv; last first.
  { unfold register_request, mbind, M_bind, lift in Hreg. rewrite Hv in Hreg.
    by injection Hreg as _ <-. }
  rewrite (register_request_validated _ _ _ _ _ Hv) in Hreg.
  destruct w as [db|]; [|by injection Hreg as _ <-].
  destruct (register_outcome _ _ _ _ _ _ _ Hv Hreg)
    as [[-> _]|(h & doc & _ & _ & Hr & _)]; done.
Qed.

(** X10: after a successful registration a lookup by the registered email
    returns the new document: it carries the generated id, the submitted
    name, email and organization, and the digest the hasher returned; the
    submitted password itself is not stored under any of its fields. *)
Theorem registered_user_is_stored_hashed body user salt oid w pub w' :
  UserCreate_validate body = Ok user →
  register_request body salt oid w = (Ok pub, w') →
  ∃ h (doc : Doc),
    get_password_hash salt (uc_password user) = Ok h
    ∧ get_user_by_email (VStr (uc_email user)) w' = (Ok (Some doc), w')
    ∧ doc !! "_id" = Some (VOid oid)
    ∧ doc !! "name" = Some (VStr (uc_name user))
    ∧ doc !! "email" = Some (VStr (uc_email user))
    ∧ doc !! "password_hash" = Some (VStr h)
    ∧ doc !! "organization" = Some (opt_value (uc_organization user))
    ∧ doc !! "password" = None.
Proof.
  intros Hv Hreg. rewrite (register_request_validated _ _ _ _ _ Hv) in Hreg.
  destruct (register_ok_inv _ _ _ _ _ _ Hreg) as (db & _ & -> & _).
  destruct (register_outcome _ _ _ _ _ _ _ Hv Hreg)
    as [[_ [e ?]]|(h & doc & Hf & Hh & _ & -> & Hid & Hn & He & Hp & _ & _ & Ho & Hpw)];
    [done|].
  exists h, doc. split; [done|]. split; [|done].
  unfold get_user_by_email. rewrite collection_insert_eq.
  rewrite (find_one_app_absent _ _ _ _ Hf). unfold find_one. simpl.
  unfold field_matches, doc_get. rewrite He. simpl.
  by rewrite bool_decide_eq_true_2.
Qed.

Lemma registered_user_lookup body user salt oid w pub w' :
  UserCreate_validate body = Ok user →
  register_request body salt oid w = (Ok pub, w') →
  ∃ doc : Doc,
    email pub = uc_email user
    ∧ ∃ db', w' = Some db'
        ∧ find_one "email" (VStr (uc_email user)) (collection db' "authuser")
          = Some doc.
Proof.
  intros Hv Hreg. rewrite (register_request_validated _ _ _ _ _ Hv) in Hreg.
  destruct (register_ok_inv _ _ _ _ _ _ Hreg) as (db & _ & -> & _).
  destruct (register_outcome _ _ _ _ _ _ _ Hv Hreg)
    as [[_ [e ?]]|(h & doc & Hf & _ & Hr & -> & _ & _ & He & _)]; [done|].
  injection Hr as ->. exists doc. split; [done|]. eexists. split; [done|].
  rewrite collection_insert_eq, (find_one_app_absent _ _ _ _ Hf).
  unfold find_one. simpl. unfold field_matches, doc_get. rewrite He. simpl.
  by rewrite bool_decide_eq_true_2.
Qed.



(** X12: once an email is registered, a further registration under that
    email, whatever its name, password or generated id, is refused with
    status 400 and stores nothing. *)
Theorem second_registration_is_rejected body salt oid w pub w' body2 user2 salt2 oid2 :
  register_request body salt oid w = (Ok pub, w') →
  UserCreate_validate body2 = Ok user2 →
  uc_email user2 = email pub →
  register_request body2 salt2 oid2 w'
  = (Raise (HTTPException 400 "Email already registered" None), w').
Proof.
  intros Hreg Hv2 Hsame.
  destruct (UserCreate_validate body) as [user|] eqn:Hv; last first.
  { unfold register_request, mbind, M_bind, lift in Hreg. by rewrite Hv in Hreg. }
  destruct (registered_user_lookup body user salt oid w pub w' Hv Hreg)
    as (doc & Hpub & db' & -> & Hfound).
  rewrite (register_request_validated _ _ _ _ _ Hv2).
  eapply register_duplicate. rewrite Hsame, Hpub. exact Hfound.
Qed.

(** X13: registration keeps the emails of the store pairwise distinct,
    whether it succeeds or fails. *)
Theorem register_keeps_emails_unique body salt oid db r db' :
  unique_emails db →
  register_request body salt oid (Some db) = (r, Some db') →
  unique_emails db'.
Proof.
  intros Huniq Hreg.
  destruct (UserCreate_validate body) as [user|] eqn:Hv; last first.
  { unfold register_request, mbind, M_bind, lift in Hreg. rewrite Hv in Hreg.
    by injection Hreg as _ <-. }
  rewrite (register_request_validated _ _ _ _ _ Hv) in Hreg.
  destruct (register_outcome _ _ _ _ _ _ _ Hv Hreg)
    as [[[= <-] _]|(h & doc & Hf & _ & _ & [= ->] & _ & _ & He & _)]; [done|].
  unfold unique_emails in *. rewrite collection_insert_eq, fmap_app. simpl.
  apply NoDup_app. split; [done|]. split; [|apply NoDup_singleton].
  intros v Hv1 Hv2%list_elem_of_singleton.
  apply list_elem_of_fmap in Hv1 as (d & -> & Hd).
  apply (find_one_absent_spec _ _ _ d Hf Hd). rewrite Hv2.
  unfold doc_get. by rewrite He.
Qed.

(** X14: a registration body whose name, email or password is absent or
    null is refused with a validation error before the store is touched. *)
Theorem registration_requires_name_email_password body salt oid w :
  doc_get body "name" = VNone
  ∨ doc_get body "email" = VNone
  ∨ doc_get body "password" = VNone →
  register_request body salt oid w = (Raise ValidationError, w).
Proof.
  intros Hmissing.
  assert (UserCreate_validate body = Raise ValidationError) as Hv.
  { unfold UserCreate_validate.
    destruct (validate_str (doc_get body "name")) as [n|e] eqn:Hn; simpl;
      [|by rewrite (validate_str_raises _ _ Hn)].
    destruct (validate_EmailStr (doc_get body "email")) as [m|e] eqn:Hm; simpl;
      [|by rewrite (validate_EmailStr_raises _ _ Hm)].
    destruct (validate_str (doc_get body "password")) as [p|e] eqn:Hp; simpl;
      [|by rewrite (validate_str_raises _ _ Hp)].
    destruct Hmissing as [Hk|[Hk|Hk]]; rewrite Hk in *; done. }
  unfold register_request, mbind, M_bind, lift. by rewrite Hv.
Qed.

(** *** Jobs *)

(** What [create_job] does against a configured store. *)
Lemma create_job_configured job (u : UserPublic) oid db :
  create_job job u oid (Some db)
  = if id_taken (VOid oid) (collection db "job")
    then (Raise (LibraryError "DuplicateKeyError"), Some db)
    else (Ok ({[ "id" := VStr (oid_hex oid); "message" := VStr "Job created" ]} : Doc),
          Some (<["job" :=
                   (collection db "job" ++
                    [<["_id" := VOid oid]>
                       (<["organization" := opt_value (organization u)]>
                          (<["created_by" := VStr (email u)]>
                             (<["status" := VStr "scheduled"]> (model_dump job))))]
                   )%list]> db)).
Proof.
  unfold create_job, mbind, M_bind, get_db, insert_one, mret, M_ret. simpl.
  match goal with
  | |- context [default (VOid oid) ?l] => replace l with (@None Value) by done
  end.
  simpl. by destruct (id_taken (VOid oid) (collection db "job")).
Qed.

(** The field and value [list_jobs] filters on do match what [create_job]
    stamps on a job of the same user. *)
Lemma own_job_in_scope (u : UserPublic) (doc : Doc) :
  doc !! "organization" = Some (opt_value (organization u)) →
  doc !! "created_by" = Some (VStr (email u)) →
  field_matches (jobs_query u).1 (jobs_query u).2 doc = true.
Proof.
  intros Ho Hc. unfold jobs_query, field_matches, doc_get.
  destruct (str_truthy (organization u)); simpl.
  - rewrite Ho. by apply bool_decide_eq_true_2.
  - rewrite Hc. by apply bool_decide_eq_true_2.
Qed.

(** X15: a job that [create_job] stores is stamped by the server: status
    "scheduled", the caller's email as creator and the caller's
    organization, next to the submitted fields and the generated id, which
    is also the id of the response. Nothing else in the store changes. *)
Theorem create_job_stamps_status_and_owner job (u : UserPublic) oid w resp w' :
  create_job job u oid w = (Ok resp, w') →
  ∃ db (doc : Doc),
    w = Some db
    ∧ w' = Some (<["job" := (collection db "job" ++ [doc])%list]> db)
    ∧ resp = {[ "id" := VStr (oid_hex oid); "message" := VStr "Job created" ]}
    ∧ doc !! "_id" = Some (VOid oid)
    ∧ doc !! "status" = Some (VStr "scheduled")
    ∧ doc !! "created_by" = Some (VStr (email u))
    ∧ doc !! "organization" = Some (opt_value (organization u))
    ∧ doc !! "title" = Some (VStr (jc_title job))
    ∧ doc !! "customer_name" = Some (VStr (jc_customer_name job))
    ∧ doc !! "customer_phone" = Some (VStr (jc_customer_phone job))
    ∧ doc !! "address" = Some (VStr (jc_address job))
    ∧ doc !! "scheduled_at" = Some (opt_value (jc_scheduled_at job))
    ∧ doc !! "technician" = Some (opt_value (jc_technician job)).
Proof.
  destruct w as [db|]; [|done]. rewrite create_job_configured.
  destruct (id_taken (VOid oid) (collection db "job")); [done|].
  intros [= <- <-]. eexists db, _. do 3 (split; [done|]). repeat split; done.
Qed.

(** X22: the document [create_job] stores validates against [schemas.Job],
    with the submitted fields and the status "scheduled". *)
Theorem created_jobs_conform_to_schema job (u : UserPublic) oid db resp db' :
  create_job job u oid (Some db) = (Ok resp, Some db') →
  ∃ doc : Doc,
    last (collection db' "job") = Some doc
    ∧ Job_validate doc
      = Ok {| job_title := jc_title job;
              job_customer_name := jc_customer_name job;
              job_customer_phone := jc_customer_phone job;
              job_address := jc_address job;
              job_status := "scheduled";
              job_scheduled_at := jc_scheduled_at job;
              job_technician := jc_technician job |}.
Proof.
  rewrite create_job_configured.
  destruct (id_taken (VOid oid) (collection db "job")); [done|].
  intros [= _ <-]. eexists. rewrite collection_insert_eq, last_snoc. split; [done|].
  unfold Job_validate, doc_get, doc_get_default.
  rewrite !lookup_insert. simpl. unfold model_dump.
  rewrite !lookup_insert, !lookup_singleton. simpl.
  by rewrite !validate_opt_str_opt_value.
Qed.

(** X23: [create_job] keeps every stored job equipped with an ["_id"]. *)
Theorem create_job_keeps_ids job (u : UserPublic) oid db r db' :
  jobs_have_ids db →
  create_job job u oid (Some db) = (r, Some db') →
  jobs_have_ids db'.
Proof.
  intros Hids. rewrite create_job_configured.
  destruct (id_taken (VOid oid) (collection db "job")); intros [= <- <-]; [done|].
  unfold jobs_have_ids. rewrite collection_insert_eq.
  apply Forall_app. split; [done|]. apply Forall_singleton.
  by rewrite lookup_insert_eq.
Qed.

Lemma list_jobs_configured (u : UserPublic) db :
  list_jobs u (Some db)
  = (for_each pop_id
       (find_limit (jobs_query u).1 (jobs_query u).2 50 (collection db "job")),
     Some db).
Proof. done. Qed.

Lemma for_each_pop_id_ok (l items : list Doc) :
  for_each pop_id l = Ok items →
  Forall2 (λ j j' : Doc, ∃ v, j !! "_id" = Some v
                           ∧ j' = <["id" := VStr (py_str v)]> (delete "_id" j))
          l items.
Proof.
  revert items. induction l as [|j l IH]; intros items; simpl.
  - intros [= <-]. constructor.
  - unfold pop_id at 1. destruct (j !! "_id") as [v|] eqn:Hid; simpl; [|done].
    destruct (for_each pop_id l) as [rest|]; simpl; [|done].
    intros [= <-]. constructor; [by exists v|by apply IH].
Qed.

Lemma for_each_pop_id_total (l : list Doc) :
  Forall (λ j : Doc, is_Some (j !! "_id")) l →
  ∃ items, for_each pop_id l = Ok items ∧ length items = length l.
Proof.
  induction 1 as [|j l [v Hv] _ (items & Hitems & Hlen)]; simpl.
  - by exists [].
  - unfold pop_id at 1. rewrite Hv, Hitems. simpl. eexists. split; [done|].
    simpl. by rewrite Hlen.
Qed.

Lemma for_each_app f (l k items1 items2 : list Doc) :
  for_each f l = Ok items1 →
  for_each f k = Ok items2 →
  for_each f (l ++ k)%list = Ok (items1 ++ items2)%list.
Proof.
  revert items1. induction l as [|j l IH]; intros items1; simpl.
  - by intros [= <-].
  - destruct (f j) as [j'|]; simpl; [|done].
    destruct (for_each f l) as [rest|]; simpl; [|done].
    intros [= <-] Hk. by rewrite (IH rest eq_refl Hk).
Qed.

Lemma Forall_filter_true {A} (f : A → bool) (l : list A) :
  Forall (λ x, f x = true) (List.filter f l).
Proof.
  induction l as [|x l IH]; simpl; [constructor|].
  destruct (f x) eqn:Hx; [by constructor|done].
Qed.

Lemma Forall_filter_sub {A} (P : A → Prop) (f : A → bool) (l : list A) :
  Forall P l → Forall P (List.filter f l).
Proof.
  induction 1 as [|x l Hx _ IH]; simpl; [constructor|].
  destruct (f x); [by constructor|done].
Qed.

Lemma Forall2_transport {A B} (R : A → B → Prop) (P : A → Prop) (Q : B → Prop)
    (l : list A) (k : list B) :
  (∀ x y, P x → R x y → Q y) →
  Forall2 R l k → Forall P l → Forall Q k.
Proof.
  intros HPQ. induction 1 as [|x y l k Hxy _ IH]; intros HP; [constructor|].
  apply Forall_cons in HP as [Hx Hl]. constructor; [by eapply HPQ|by apply IH].
Qed.

(** X16: [list_jobs] returns at most 50 jobs, all within the caller's
    scope: the caller's organization when it is a non-empty string,
    otherwise the jobs the caller created. Every item has its ["_id"]
    replaced by a textual ["id"], and the store is left as it was. *)
Theorem list_jobs_stays_in_scope (u : UserPublic) w items w' :
  list_jobs u w = (Ok items, w') →
  w' = w
  ∧ (length items ≤ 50)%nat
  ∧ Forall (λ j : Doc,
              j !! "_id" = None
              ∧ (∃ i, j !! "id" = Some (VStr i))
              ∧ (if str_truthy (organization u)
                 then doc_get j "organization" = opt_value (organization u)
                 else doc_get j "created_by" = VStr (email u)))
           items.
Proof.
  destruct w as [db|]; [|done]. rewrite list_jobs_configured.
  intros [= Hloop <-]. apply for_each_pop_id_ok in Hloop.
  split; [done|]. split.
  - rewrite <- (Forall2_length _ _ _ Hloop). unfold find_limit.
    rewrite length_take. lia.
  - eapply Forall2_transport; [|exact Hloop|].
    2: { unfold find_limit. apply Forall_take, Forall_filter_true. }
    intros j j' Hm (v & Hv & ->). simpl in Hm.
    split; [by rewrite lookup_insert_ne, lookup_delete_eq|].
    split; [rewrite lookup_insert_eq; by eexists|].
    unfold jobs_query, field_matches in Hm. unfold doc_get in *.
    destruct (str_truthy (organization u)); simpl in Hm;
      apply bool_decide_eq_true in Hm;
      by rewrite lookup_insert_ne, lookup_delete_ne.
Qed.

(** X17: when every stored job carries its ["_id"], [list_jobs] never
    fails against a configured store: it returns the first 50 jobs of the
    caller's scope, or all of them when there are fewer. *)
Theorem list_jobs_total_on_stored_jobs (u : UserPublic) db :
  jobs_have_ids db →
  ∃ items,
    list_jobs u (Some db) = (Ok items, Some db)
    ∧ length items
      = Nat.min 50 (length (List.filter
                              (field_matches (jobs_query u).1 (jobs_query u).2)
                              (collection db "job"))).
Proof.
  intros Hids. rewrite list_jobs_configured.
  destruct (for_each_pop_id_total
              (find_limit (jobs_query u).1 (jobs_query u).2 50 (collection db "job")))
    as (items & Hitems & Hlen).
  { unfold find_limit. by apply Forall_take, Forall_filter_sub. }
  exists items. rewrite Hitems. split; [done|].
  rewrite Hlen. unfold find_limit. by rewrite length_take.
Qed.

Lemma find_limit_snoc_match field v n (c : Collection) (d : Doc) :
  field_matches field v d = true →
  (length (List.filter (field_matches field v) c) < n)%nat →
  find_limit field v n (c ++ [d]) = (find_limit field v n c ++ [d])%list.
Proof.
  intros Hd Hfew. unfold find_limit. rewrite List.filter_app. simpl. rewrite Hd.
  rewrite !take_ge; [done|lia|rewrite length_app; simpl; lia].
Qed.

Lemma find_limit_snoc_other field v n (c : Collection) (d : Doc) :
  field_matches field v d = false →
  find_limit field v n (c ++ [d]) = find_limit field v n c.
Proof.
  intros Hd. unfold find_limit. rewrite List.filter_app. simpl. rewrite Hd.
  by rewrite app_nil_r.
Qed.

Lemma find_limit_snoc_full field v n (c l : Collection) :
  (n ≤ length (List.filter (field_matches field v) c))%nat →
  find_limit field v n (c ++ l) = find_limit field v n c.
Proof.
  intros Hfull. unfold find_limit. by rewrite List.filter_app, take_app_le.
Qed.

(** X18: a job is listed to its creator right after it is created, as the
    last item, provided the creator's scope held fewer than 50 jobs. *)
Theorem created_job_is_listed job (u : UserPublic) oid db resp w' :
  jobs_have_ids db →
  create_job job u oid (Some db) = (Ok resp, w') →
  (length (List.filter (field_matches (jobs_query u).1 (jobs_query u).2)
             (collection db "job")) < 50)%nat →
  ∃ (items : list Doc) (listed : Doc),
    list_jobs u (Some db) = (Ok items, Some db)
    ∧ list_jobs u w' = (Ok (items ++ [listed])%list, w')
    ∧ listed !! "id" = Some (VStr (oid_hex oid))
    ∧ listed !! "_id" = None
    ∧ listed !! "title" = Some (VStr (jc_title job))
    ∧ listed !! "status" = Some (VStr "scheduled").
Proof.
  intros Hids. rewrite create_job_configured.
  destruct (id_taken (VOid oid) (collection db "job")); [done|].
  intros [= _ <-] Hfew.
  set (doc := <["_id" := VOid oid]> _ : Doc).
  destruct (for_each_pop_id_total
              (find_limit (jobs_query u).1 (jobs_query u).2 50 (collection db "job")))
    as (items & Hitems & _).
  { unfold find_limit. by apply Forall_take, Forall_filter_sub. }
  exists items, (<["id" := VStr (oid_hex oid)]> (delete "_id" doc)).
  rewrite !list_jobs_configured, collection_insert_eq.
  rewrite find_limit_snoc_match; [|by apply own_job_in_scope|done].
  rewrite Hitems. split; [done|]. split.
  { erewrite for_each_app; [done|exact Hitems|]. simpl. unfold pop_id.
    unfold doc at 1. by rewrite lookup_insert_eq. }
  split; [by rewrite lookup_insert_eq|].
  split; [by rewrite lookup_insert_ne, lookup_delete_eq|].
  by rewrite !lookup_insert_ne, !lookup_delete_ne.
Qed.

Lemma opt_value_inj o o' : opt_value o = opt_value o' → o = o'.
Proof. destruct o, o'; simpl; congruence. Qed.

(** X19: creating a job does not change what a caller of another scope is
    listed: a caller with an organization other than the creator's, or a
    caller without organization other than the creator. *)
Theorem jobs_are_isolated_between_scopes job (u v : UserPublic) oid db resp w' :
  create_job job u oid (Some db) = (Ok resp, w') →
  (str_truthy (organization v) = true ∧ organization u ≠ organization v)
  ∨ (str_truthy (organization v) = false ∧ email u ≠ email v) →
  (list_jobs v w').1 = (list_jobs v (Some db)).1.
Proof.
  rewrite create_job_configured.
  destruct (id_taken (VOid oid) (collection db "job")); [done|].
  intros [= _ <-] Hother.
  rewrite !list_jobs_configured, collection_insert_eq. simpl.
  rewrite find_limit_snoc_other; [done|].
  apply bool_decide_eq_false. unfold jobs_query, doc_get.
  destruct Hother as [[-> Hne]|[-> Hne]]; simpl.
  - rewrite lookup_insert_ne, lookup_insert_eq by done. simpl.
    by intros ?%opt_value_inj.
  - rewrite !lookup_insert_ne, lookup_insert_eq by done. simpl. congruence.
Qed.

(** X24: [list_jobs] reads the first 50 jobs of a scope in insertion order,
    so a job created in a scope that already holds 50 does not show in the
    listing. *)
Theorem job_beyond_the_limit_is_not_listed job (u v : UserPublic) oid db resp w' :
  create_job job u oid (Some db) = (Ok resp, w') →
  (50 ≤ length (List.filter (field_matches (jobs_query v).1 (jobs_query v).2)
                  (collection db "job")))%nat →
  (list_jobs v w').1 = (list_jobs v (Some db)).1.
Proof.
  rewrite create_job_configured.
  destruct (id_taken (VOid oid) (collection db "job")); [done|].
  intros [= _ <-] Hfull.
  rewrite !list_jobs_configured, collection_insert_eq. simpl.
  by rewrite find_limit_snoc_full.
Qed.

(** X20: the job routes run their handler only behind the resolver: when
    the resolver raises, both routes raise the same exception and the
    store is left as it was; no job is created. *)
Theorem job_routes_are_gated now token job oid w e w1 :
  get_current_user now token w = (Raise e, w1) →
  post_jobs now token job oid w = (Raise e, w)
  ∧ get_jobs now token w = (Raise e, w).
Proof.
  intros Hres. pose proof (get_current_user_read_only now token w) as Hro.
  rewrite Hres in Hro. simpl in Hro. subst w1.
  unfold post_jobs, get_jobs, mbind, M_bind. by rewrite Hres.
Qed.

(** *** Users and jobs do not interfere *)

(** The resolver and [login] see the store only through the [authuser]
    collection. *)
Lemma authentication_reads_authuser now token username password db db' :
  collection db' "authuser" = collection db "authuser" →
  (get_current_user now token (Some db')).1 = (get_current_user now token (Some db)).1
  ∧ (login now username password (Some db')).1
    = (login now username password (Some db)).1.
Proof.
  intros Hsame. split.
  - unfold get_current_user, mbind, M_bind, except_JWTError, lift, raise.
    destruct (jwt_decode token SECRET_KEY now) as [payload|[]]; simpl; try done.
    case_bool_decide; simpl; [done|].
    destruct (TokenData_new (doc_get payload "sub")) as [td|[]]; simpl; try done.
    rewrite Hsame. by destruct (find_one _ _ _).
  - unfold login, mbind, M_bind, get_user_by_email, lift, raise. simpl.
    rewrite Hsame.
    destruct (find_one "email" (VStr username) (collection db "authuser")) as [u|];
      simpl; [|done].
    destruct (bool_decide (u = ∅)); simpl; [done|].
    destruct (verify_password _ _) as [[]|]; simpl; try done.
    destruct (doc_index u "email"); simpl; [|done].
    by destruct (create_access_token _ _ _).
Qed.

(** X21: creating a job, whether it succeeds or fails, changes nothing for
    authentication: every token resolves and every login answers as
    before. *)
Theorem create_job_leaves_authentication job (u : UserPublic) oid w r w'
    now token username password :
  create_job job u oid w = (r, w') →
  (get_current_user now token w').1 = (get_current_user now token w).1
  ∧ (login now username password w').1 = (login now username password w).1.
Proof.
  destruct w as [db|]; [|by intros [= _ <-]].
  rewrite create_job_configured.
  destruct (id_taken (VOid oid) (collection db "job")); intros [= _ <-]; [done|].
  apply authentication_reads_authuser. by rewrite collection_insert_ne.
Qed.

(** X25: a registration, whether it succeeds or fails, changes no job
    listing. *)
Theorem registration_leaves_job_listings body salt oid w r w' (u : UserPublic) :
  register_request body salt oid w = (r, w') →
  (list_jobs u w').1 = (list_jobs u w).1.
Proof.
  intros Hreg.
  destruct (UserCreate_validate body) as [user|] eqn:Hv; last first.
  { unfold register_request, mbind, M_bind, lift in Hreg. rewrite Hv in Hreg.
    by injection Hreg as _ <-. }
  rewrite (register_request_validated _ _ _ _ _ Hv) in Hreg.
  destruct w as [db|]; [|by injection Hreg as _ <-].
  destruct (register_outcome _ _ _ _ _ _ _ Hv Hreg)
    as [[-> _]|(h & doc & _ & _ & _ & -> & _)]; [done|].
  rewrite !list_jobs_configured. simpl. by rewrite collection_insert_ne.
Qed.

End Composition.

(** ** The scenarios of the specification, run on the reference models *)

(** Closes an equation between closed terms by evaluating both sides. *)
Ltac evaluate :=
  lazymatch goal with
  | |- @eq ?A ?x ?y => vm_cast_no_check (@eq_refl A y)
  end.

Section Scenarios.
Import Reference.
#[local] Existing Instance ref_environ.
#[local] Existing Instance ref_email.
#[local] Existing Instance ref_passlib.
#[local] Existing Instance ref_jose.

(** Scenarios 1, 3 and 5: register, log in, call [/auth/me]. *)
Example scenario_register :
  register_request body_a salt_a 255 (Some ∅) = (Ok (public_a true), Some db_a).
Proof. evaluate. Qed.

Example scenario_login :
  login noon "a@x.com" "pw123" (Some db_a)
  = (Ok {| access_token := token_a; token_type := "bearer" |}, Some db_a).
Proof. evaluate. Qed.

Example scenario_me :
  me (noon + one_hour) token_a (Some db_a) = (Ok (public_a true), Some db_a).
Proof. evaluate. Qed.

Example scenario_decode :
  jwt_decode token_a SECRET_KEY (noon + one_hour) = Ok payload_a.
Proof. evaluate. Qed.

(** Scenario 4 reaches the resolver with no token at all; a token that is
    not a JWT is rejected in the same way. *)
Example scenario_garbage_token :
  jwt_decode "garbage" SECRET_KEY noon = Raise JWTError.
Proof. evaluate. Qed.

Lemma db_a_authuser active :
  collection {[ "authuser" := [record_a active] ]} "authuser" = [record_a active].
Proof. done. Qed.

Lemma db_a_conforms : store_conforms db_a.
Proof.
  unfold store_conforms, db_a. rewrite db_a_authuser.
  apply Forall_singleton. evaluate.
Qed.

Lemma login_token_resolves_to_user_witness :
  ∃ ident,
    get_current_user (noon + one_hour) token_a (Some db_a) = (Ok ident, Some db_a)
    ∧ email ident = "a@x.com".
Proof.
  apply (login_token_resolves_to_user noon (noon + one_hour) "pw123" db_a
           (record_a true) "a@x.com"
           {| access_token := token_a; token_type := "bearer" |} (Some db_a)).
  - apply db_a_conforms.
  - unfold db_a. rewrite db_a_authuser. apply list_elem_of_here.
  - evaluate.
  - evaluate.
  - by vm_compute.
Defined.




Lemma credential_faults_share_one_response_witness :
  get_current_user noon "garbage" (Some db_a)
  = (Raise (HTTPException 401 "Could not validate credentials"
              (Some {[ "WWW-Authenticate" := "Bearer" ]})), Some db_a).
Proof.
  apply credential_faults_share_one_response. left. evaluate.
Defined.

Lemma unconfigured_store_fails_at_lookup_witness :
  get_current_user (noon + one_hour) token_a None
  = (Raise (HTTPException 500 "Database not configured" None), None).
Proof.
  apply (proj1 (unconfigured_store_fails_at_lookup (noon + one_hour) token_a)).
  exists payload_a, "a@x.com". split; evaluate.
Defined.

Lemma identity_excludes_password_hash_witness :
  (get_current_user (noon + one_hour) token_a (Some db_a)).1
  = (get_current_user (noon + one_hour) token_a
       (Some {[ "authuser" := [delete "password_hash" (record_a true)] ]})).1.
Proof.
  apply (proj2 (identity_excludes_password_hash (noon + one_hour) token_a
                  payload_a "a@x.com" scenario_decode eq_refl)).
  evaluate.
Defined.

Lemma inactive_user_still_resolves_witness :
  ∃ ident,
    get_current_user (noon + one_hour) token_a (Some db_inactive)
    = (Ok ident, Some db_inactive)
    ∧ is_active ident = false.
Proof.
  apply (inactive_user_still_resolves (noon + one_hour) token_a payload_a
           "a@x.com" db_inactive (record_a false) (auth_a false) false);
    evaluate.
Defined.


(** A client that sends ["role": "admin"] and ["is_active": false] is
    registered as an active owner all the same. *)
Lemma register_forces_owner_and_active_witness :
  role (public_a true) = "owner" ∧ is_active (public_a true) = true
  ∧ ∃ db (doc : Doc),
      Some ∅ = Some db
      ∧ Some db_a
        = Some (<["authuser" := (collection db "authuser" ++ [doc])%list]> db)
      ∧ doc !! "email" = Some (VStr (email (public_a true)))
      ∧ doc !! "role" = Some (VStr "owner")
      ∧ doc !! "is_active" = Some (VBool true).
Proof.
  apply (proj2 (proj2 (register_forces_owner_and_active body_admin salt_a 255
                         (Some ∅)))).
  evaluate.
Defined.

(** C9 does not hold of the code. [verify_password] forwards to passlib
    with no handler, and passlib raises on a digest it cannot read: the
    empty digest and any text without a bcrypt prefix are an
    [UnknownHashError], a truncated bcrypt digest is a [ValueError]. A
    login for a record without [password_hash], for which [login] itself
    supplies the empty digest, ends in that exception and not in the 400
    rejection. *)
Theorem malformed_digest_raises_past_verify_password :
  verify_password "pw123" (VStr "") = Raise (LibraryError "UnknownHashError")
  ∧ verify_password "pw123" (VStr "not-a-digest")
    = Raise (LibraryError "UnknownHashError")
  ∧ verify_password "pw123" (VStr "$2b$12$truncated")
    = Raise (LibraryError "ValueError")
  ∧ login noon "b@x.com" "pw123" (Some db_b)
    = (Raise (LibraryError "UnknownHashError"), Some db_b).
Proof. repeat split; evaluate. Qed.

End Scenarios.

(** ** Registration, login and jobs on the reference models *)

Section Walkthroughs.
Import Reference.
#[local] Existing Instance ref_environ.
#[local] Existing Instance ref_email.
#[local] Existing Instance ref_passlib.
#[local] Existing Instance ref_jose.

Lemma resolver_identity_is_sound_witness :
  ∃ payload subject db u,
    jwt_decode token_a SECRET_KEY (noon + one_hour) = Ok payload
    ∧ doc_get payload "sub" = VStr subject
    ∧ Some db_a = Some db ∧ Some db_a = Some db
    ∧ find_one "email" (VStr subject) (collection db "authuser") = Some u
    ∧ doc_get u "email" = VStr subject.
Proof.
  apply (resolver_identity_is_sound (noon + one_hour) token_a (Some db_a)
           (public_a true) (Some db_a)).
  evaluate.
Defined.

Lemma resolver_http_errors_witness :
  HTTPException 401 "Could not validate credentials"
    (Some {[ "WWW-Authenticate" := "Bearer" ]}) = credentials_exception
  ∨ (HTTPException 401 "Could not validate credentials"
       (Some {[ "WWW-Authenticate" := "Bearer" ]})
     = HTTPException 500 "Database not configured" None
     ∧ Some db_a = None).
Proof.
  apply (resolver_http_errors noon "garbage" (Some db_a) _ _ _ (Some db_a)).
  evaluate.
Defined.

Lemma login_token_is_earned_witness :
  ∃ db u,
    Some db_a = Some db
    ∧ find_one "email" (VStr "a@x.com") (collection db "authuser") = Some u
    ∧ verify_password "pw123" (doc_get_default u "password_hash" (VStr ""))
      = Ok true
    ∧ create_access_token {[ "sub" := CJson (VStr "a@x.com") ]} None noon
      = Ok (access_token login_a)
    ∧ token_type login_a = "bearer".
Proof.
  apply (login_token_is_earned noon "a@x.com" "pw123" (Some db_a) login_a (Some db_a)).
  evaluate.
Defined.

Lemma login_propagates_hasher_error_witness :
  login noon "b@x.com" "pw123" (Some db_b)
  = (Raise (LibraryError "UnknownHashError"), Some db_b).
Proof.
  apply (login_propagates_hasher_error noon "b@x.com" "pw123" db_b record_b);
    evaluate.
Defined.

Lemma default_token_lifetime_is_one_day_witness :
  ∃ token,
    create_access_token claims_a None noon = Ok token
    ∧ ∀ now' : Z,
        ((now' ≤ noon + 86400000000)%Z →
         jwt_decode token SECRET_KEY now'
         = Ok (<["exp" := VInt (timegm (noon + 86400000000))]> (payload_of claims_a)))
        ∧ ((noon + 86400000000 + 1000000 ≤ now')%Z →
           jwt_decode token SECRET_KEY now' = Raise JWTError).
Proof.
  apply (default_token_lifetime_is_one_day claims_a None noon).
  - by apply map_Forall_singleton.
  - by left.
Defined.

Lemma expired_login_token_is_rejected_witness :
  get_current_user (noon + 2 * 86400000000) (access_token login_a) (Some db_a)
  = (Raise credentials_exception, Some db_a).
Proof.
  apply (expired_login_token_is_rejected noon (noon + 2 * 86400000000)
           "a@x.com" "pw123" (Some db_a) login_a (Some db_a) (Some db_a)).
  - evaluate.
  - by vm_compute.
Defined.

Lemma failed_registration_stores_nothing_witness : Some db_a = Some db_a.
Proof.
  apply (failed_registration_stores_nothing body_a salt_a 256 (Some db_a)
           (HTTPException 400 "Email already registered" None) (Some db_a)).
  evaluate.
Defined.

Lemma register_request_preserves_conformance_witness : store_conforms db_a.
Proof.
  apply (register_request_preserves_conformance body_a salt_a 255 ∅
           (Ok (public_a true)) db_a).
  - apply Forall_nil_2.
  - evaluate.
Defined.

Lemma registered_user_is_stored_hashed_witness :
  ∃ h (doc : Doc),
    get_password_hash salt_a (uc_password user_a) = Ok h
    ∧ get_user_by_email (VStr (uc_email user_a)) (Some db_a)
      = (Ok (Some doc), Some db_a)
    ∧ doc !! "_id" = Some (VOid 255)
    ∧ doc !! "name" = Some (VStr (uc_name user_a))
    ∧ doc !! "email" = Some (VStr (uc_email user_a))
    ∧ doc !! "password_hash" = Some (VStr h)
    ∧ doc !! "organization" = Some (opt_value (uc_organization user_a))
    ∧ doc !! "password" = None.
Proof.
  apply (registered_user_is_stored_hashed body_a user_a salt_a 255 (Some ∅)
           (public_a true) (Some db_a)); evaluate.
Defined.


Lemma second_registration_is_rejected_witness :
  register_request body_admin salt_a 256 (Some db_a)
  = (Raise (HTTPException 400 "Email already registered" None), Some db_a).
Proof.
  apply (second_registration_is_rejected body_a salt_a 255 (Some ∅)
           (public_a true) (Some db_a) body_admin user_a salt_a 256); evaluate.
Defined.

Lemma register_keeps_emails_unique_witness : unique_emails db_a.
Proof.
  apply (register_keeps_emails_unique body_a salt_a 255 ∅ (Ok (public_a true)) db_a).
  - apply NoDup_nil_2.
  - evaluate.
Defined.

Lemma registration_requires_name_email_password_witness :
  register_request body_no_password salt_a 255 (Some db_a)
  = (Raise ValidationError, Some db_a).
Proof.
  apply registration_requires_name_email_password. right. right. evaluate.
Defined.

Lemma stored_job_has_id oid : is_Some (stored_job oid !! "_id").
Proof. by exists (VOid oid). Qed.

Lemma db_a_has_no_jobs : jobs_have_ids db_a.
Proof. apply Forall_nil_2. Qed.

Lemma db_job_has_ids : jobs_have_ids db_job.
Proof.
  unfold jobs_have_ids.
  change (collection db_job "job") with [stored_job 4096].
  apply Forall_singleton, stored_job_has_id.
Qed.

Lemma create_job_stamps_status_and_owner_witness :
  ∃ db (doc : Doc),
    Some db_a = Some db
    ∧ Some db_job = Some (<["job" := (collection db "job" ++ [doc])%list]> db)
    ∧ created_a = {[ "id" := VStr (oid_hex 4096); "message" := VStr "Job created" ]}
    ∧ doc !! "_id" = Some (VOid 4096)
    ∧ doc !! "status" = Some (VStr "scheduled")
    ∧ doc !! "created_by" = Some (VStr (email (public_a true)))
    ∧ doc !! "organization" = Some (opt_value (organization (public_a true)))
    ∧ doc !! "title" = Some (VStr (jc_title job_a))
    ∧ doc !! "customer_name" = Some (VStr (jc_customer_name job_a))
    ∧ doc !! "customer_phone" = Some (VStr (jc_customer_phone job_a))
    ∧ doc !! "address" = Some (VStr (jc_address job_a))
    ∧ doc !! "scheduled_at" = Some (opt_value (jc_scheduled_at job_a))
    ∧ doc !! "technician" = Some (opt_value (jc_technician job_a)).
Proof.
  apply (create_job_stamps_status_and_owner job_a (public_a true) 4096 (Some db_a)
           created_a (Some db_job)).
  evaluate.
Defined.

Lemma created_jobs_conform_to_schema_witness :
  ∃ doc : Doc,
    last (collection db_job "job") = Some doc
    ∧ Job_validate doc
      = Ok {| job_title := jc_title job_a;
              job_customer_name := jc_customer_name job_a;
              job_customer_phone := jc_customer_phone job_a;
              job_address := jc_address job_a;
              job_status := "scheduled";
              job_scheduled_at := jc_scheduled_at job_a;
              job_technician := jc_technician job_a |}.
Proof.
  apply (created_jobs_conform_to_schema job_a (public_a true) 4096 db_a created_a
           db_job).
  evaluate.
Defined.

Lemma create_job_keeps_ids_witness : jobs_have_ids db_job.
Proof.
  apply (create_job_keeps_ids job_a (public_a true) 4096 db_a (Ok created_a) db_job).
  - apply db_a_has_no_jobs.
  - evaluate.
Defined.

Lemma list_jobs_stays_in_scope_witness :
  Some db_job = Some db_job
  ∧ (length [listed_job 4096] ≤ 50)%nat
  ∧ Forall (λ j : Doc,
              j !! "_id" = None
              ∧ (∃ i, j !! "id" = Some (VStr i))
              ∧ (if str_truthy (organization (public_a true))
                 then doc_get j "organization"
                      = opt_value (organization (public_a true))
                 else doc_get j "created_by" = VStr (email (public_a true))))
           [listed_job 4096].
Proof.
  apply (list_jobs_stays_in_scope (public_a true) (Some db_job) [listed_job 4096]
           (Some db_job)).
  evaluate.
Defined.

Lemma list_jobs_total_on_stored_jobs_witness :
  ∃ items,
    list_jobs (public_a true) (Some db_job) = (Ok items, Some db_job)
    ∧ length items
      = Nat.min 50 (length (List.filter
                              (field_matches (jobs_query (public_a true)).1
                                 (jobs_query (public_a true)).2)
                              (collection db_job "job"))).
Proof.
  apply (list_jobs_total_on_stored_jobs (public_a true) db_job), db_job_has_ids.
Defined.

Lemma created_job_is_listed_witness :
  ∃ (items : list Doc) (listed : Doc),
    list_jobs (public_a true) (Some db_a) = (Ok items, Some db_a)
    ∧ list_jobs (public_a true) (Some db_job)
      = (Ok (items ++ [listed])%list, Some db_job)
    ∧ listed !! "id" = Some (VStr (oid_hex 4096))
    ∧ listed !! "_id" = None
    ∧ listed !! "title" = Some (VStr (jc_title job_a))
    ∧ listed !! "status" = Some (VStr "scheduled").
Proof.
  apply (created_job_is_listed job_a (public_a true) 4096 db_a created_a
           (Some db_job)).
  - apply db_a_has_no_jobs.
  - evaluate.
  - vm_compute. lia.
Defined.

Lemma jobs_are_isolated_between_scopes_witness :
  (list_jobs public_v (Some db_job)).1 = (list_jobs public_v (Some db_a)).1.
Proof.
  apply (jobs_are_isolated_between_scopes job_a (public_a true) public_v 4096 db_a
           created_a (Some db_job)).
  - evaluate.
  - left. split; [evaluate|done].
Defined.

Lemma job_beyond_the_limit_is_not_listed_witness :
  (list_jobs (public_a true)
     (create_job job_a (public_a true) 4096 (Some db_full)).2).1
  = (list_jobs (public_a true) (Some db_full)).1.
Proof.
  apply (job_beyond_the_limit_is_not_listed job_a (public_a true) (public_a true)
           4096 db_full created_a).
  - evaluate.
  - vm_compute. lia.
Defined.

Lemma job_routes_are_gated_witness :
  post_jobs noon "garbage" job_a 4096 (Some db_a)
  = (Raise credentials_exception, Some db_a)
  ∧ get_jobs noon "garbage" (Some db_a)
    = (Raise credentials_exception, Some db_a).
Proof.
  apply (job_routes_are_gated noon "garbage" job_a 4096 (Some db_a)
           credentials_exception (Some db_a)).
  evaluate.
Defined.

Lemma create_job_leaves_authentication_witness :
  (get_current_user (noon + one_hour) token_a (Some db_job)).1
  = (get_current_user (noon + one_hour) token_a (Some db_a)).1
  ∧ (login (noon + one_hour) "a@x.com" "pw123" (Some db_job)).1
    = (login (noon + one_hour) "a@x.com" "pw123" (Some db_a)).1.
Proof.
  apply (create_job_leaves_authentication job_a (public_a true) 4096 (Some db_a)
           (Ok created_a) (Some db_job)).
  evaluate.
Defined.

Lemma registration_leaves_job_listings_witness :
  (list_jobs (public_a true)
     (register_request body_a salt_a 255 (Some (<["job" := [stored_job 4096]]> ∅))).2).1
  = (list_jobs (public_a true) (Some (<["job" := [stored_job 4096]]> ∅))).1.
Proof.
  apply (registration_leaves_job_listings body_a salt_a 255 _
           (register_request body_a salt_a 255
              (Some (<["job" := [stored_job 4096]]> ∅))).1).
  by destruct (register_request body_a salt_a 255 _).
Defined.

End Walkthroughs.
